(** * Fronius sensor platform (homeassistant/components/fronius/sensor.py)

    A shallow embedding of the platform's configuration validation, of the
    prefix tables that classify a sensor, of the polling adapter
    [FroniusAdapter] and of the per-field entity [FroniusTemplateSensor],
    followed by the properties the specification states about them.

    Python objects that are mutated through shared references (the
    condition dictionaries of a configuration, the sensor entities an
    adapter creates) live in an explicit store indexed by locations;
    immutable data (strings, integers) are plain values. *)

From Stdlib Require Import ZArith String List Bool Lia.
From Stdlib Require Import Floats.PrimFloat.
From Stdlib Require Import Ascii.
From Stdlib Require DecimalString DecimalZ DecimalPos.
From stdpp Require Import gmap strings list.

Open Scope string_scope.
Open Scope list_scope.

(** ** Python dictionaries

    A [dict] keeps its keys unique and iterates in insertion order; it is
    an association list in which [set] overwrites in place or appends. *)
Module PyDict.

Abbreviation t V := (list (string * V)) (only parsing).

Section Ops.
Context {V : Type}.

(** [d.get(k)]: the entry of [k], [None] when absent. *)
Fixpoint get (k : string) (d : t V) : option V :=
  match d with
  | [] => None
  | (k', v) :: d' => if String.eqb k k' then Some v else get k d'
  end.

(** [k in d]. *)
Definition mem (k : string) (d : t V) : bool :=
  match get k d with Some _ => true | None => false end.

(** [d[k] = v]: an existing key keeps its position. *)
Fixpoint set (k : string) (v : V) (d : t V) : t V :=
  match d with
  | [] => [(k, v)]
  | (k', v') :: d' =>
      if String.eqb k k' then (k', v) :: d' else (k', v') :: set k v d'
  end.

(** The keys in iteration order, as [for k in d] sees them. *)
Definition keys (d : t V) : list string := map fst d.

End Ops.
End PyDict.

(** ** Constants of the platform (sensor.py, lines 41-63)

    The configuration keys imported from [homeassistant.const] are the
    host's string constants; only their being distinct matters below. *)
Definition CONF_SCOPE : string := "scope".
Definition CONF_DEVICE : string := "device".
Definition CONF_MONITORED_CONDITIONS : string := "monitored_conditions".
Definition CONF_RESOURCE : string := "resource".
Definition CONF_SENSOR_TYPE : string := "sensor_type".

Definition TYPE_INVERTER : string := "inverter".
Definition TYPE_STORAGE : string := "storage".
Definition TYPE_METER : string := "meter".
Definition TYPE_POWER_FLOW : string := "power_flow".
Definition TYPE_LOGGER_INFO : string := "logger_info".
Definition SCOPE_DEVICE : string := "device".
Definition SCOPE_SYSTEM : string := "system".

Definition DEFAULT_SCOPE : string := SCOPE_DEVICE.
Definition DEFAULT_DEVICE : Z := 0.
Definition DEFAULT_INVERTER : Z := 1.

Definition SENSOR_TYPES : list string :=
  [TYPE_INVERTER; TYPE_STORAGE; TYPE_METER; TYPE_POWER_FLOW; TYPE_LOGGER_INFO].
Definition SCOPE_TYPES : list string := [SCOPE_DEVICE; SCOPE_SYSTEM].

(** The host's device and state classes, by name. *)
Inductive device_class : Set :=
  | DEVICE_CLASS_BATTERY
  | DEVICE_CLASS_CURRENT
  | DEVICE_CLASS_ENERGY
  | DEVICE_CLASS_POWER
  | DEVICE_CLASS_POWER_FACTOR
  | DEVICE_CLASS_TEMPERATURE
  | DEVICE_CLASS_TIMESTAMP
  | DEVICE_CLASS_VOLTAGE.

Inductive state_class : Set :=
  | STATE_CLASS_MEASUREMENT
  | STATE_CLASS_TOTAL_INCREASING.

Definition PREFIX_DEVICE_CLASS_MAPPING : list (string * device_class) :=
  [ ("state_of_charge", DEVICE_CLASS_BATTERY);
    ("temperature", DEVICE_CLASS_TEMPERATURE);
    ("power_factor", DEVICE_CLASS_POWER_FACTOR);
    ("power", DEVICE_CLASS_POWER);
    ("energy", DEVICE_CLASS_ENERGY);
    ("current", DEVICE_CLASS_CURRENT);
    ("timestamp", DEVICE_CLASS_TIMESTAMP);
    ("voltage", DEVICE_CLASS_VOLTAGE) ].

Definition PREFIX_STATE_CLASS_MAPPING : list (string * state_class) :=
  [ ("state_of_charge", STATE_CLASS_MEASUREMENT);
    ("temperature", STATE_CLASS_MEASUREMENT);
    ("power_factor", STATE_CLASS_MEASUREMENT);
    ("power", STATE_CLASS_MEASUREMENT);
    ("energy", STATE_CLASS_TOTAL_INCREASING);
    ("current", STATE_CLASS_MEASUREMENT);
    ("timestamp", STATE_CLASS_MEASUREMENT);
    ("voltage", STATE_CLASS_MEASUREMENT) ].

(** ** Telemetry values *)

(** What a telemetry entry holds under a key such as ["value"] or
    ["unit"]. *)
Inductive pyval : Type :=
  | PNone
  | PStr (s : string)
  | PInt (z : Z)
  | PFloat (f : float).

(** One field of a fetch response, e.g. [{"value": 230.1, "unit": "V"}]. *)
Abbreviation entry := (PyDict.t pyval) (only parsing).

(** ** The per-field entity (sensor.py, lines 307-348) *)

(** [key.startswith(prefix)] *)
Definition startswith (key pre : string) : bool := String.prefix pre key.

(** The loops of [__init__] (lines 315-322): the class of the first row
    whose prefix the key starts with, then [break]; when the loop runs
    out the attribute keeps the host's default, [None]. *)
Fixpoint class_of_prefix {C : Type} (table : list (string * C)) (key : string)
  : option C :=
  match table with
  | [] => None
  | (pre, cls) :: rest =>
      if startswith key pre then Some cls else class_of_prefix rest key
  end.

Record FroniusTemplateSensor : Type := {
  _key : string;
  _attr_device_class : option device_class;
  _attr_state_class : option state_class;
  _attr_native_value : pyval;
  _attr_native_unit_of_measurement : pyval
}.

(** [FroniusTemplateSensor(parent, key)]; the parent is the adapter whose
    store the entity is allocated in. *)
Definition FroniusTemplateSensor_init (key : string) : FroniusTemplateSensor :=
  {| _key := key;
     _attr_device_class := class_of_prefix PREFIX_DEVICE_CLASS_MAPPING key;
     _attr_state_class := class_of_prefix PREFIX_STATE_CLASS_MAPPING key;
     _attr_native_value := PNone;
     _attr_native_unit_of_measurement := PNone |}.

(** Row [i] of a table is the first one whose prefix [key] starts with. *)
Definition first_match {C : Type} (table : list (string * C)) (key : string)
  (i : nat) (cls : C) : Prop :=
  (exists pre, table !! i = Some (pre, cls) /\ startswith key pre = true) /\
  forall j pre' cls', j < i -> table !! j = Some (pre', cls') ->
    startswith key pre' = false.

(** No row of the table has a prefix of [key]. *)
Definition no_match {C : Type} (table : list (string * C)) (key : string)
  : Prop :=
  forall pre cls, (pre, cls) ∈ table -> startswith key pre = false.


(** ** Configuration validation (sensor.py, lines 88-121) *)

(** A scalar of a validated configuration. *)
Inductive atom : Type :=
  | AStr (s : string)
  | AInt (z : Z).

#[global] Instance atom_eq_dec : EqDecision atom.
Proof. solve_decision. Defined.

(** A monitored condition as the schema hands it on: a dictionary. *)
Abbreviation cond := (PyDict.t atom) (only parsing).

(** A monitored condition as written in the configuration, with the three
    keys the schema of lines 108-114 knows; an absent key is [None]. *)
Record raw_condition : Type := {
  rc_sensor_type : option string;
  rc_scope : option string;
  rc_device : option Z
}.

(** [vol.In(container)]: the value must be one of the container's. *)
Definition vol_In (container : list string) (v : string) : option string :=
  if existsb (String.eqb v) container then Some v else None.

(** Modelled from the spec: [cv.positive_int] belongs to the host's
    [helpers.config_validation], which is not part of the source file; a
    device index, when given, must be a non-negative integer. *)
Definition positive_int (n : Z) : option Z :=
  if (0 <=? n)%Z then Some n else None.

(** The dictionary schema applied to every monitored condition:
    [vol.Required(CONF_SENSOR_TYPE): vol.In(SENSOR_TYPES)],
    [vol.Optional(CONF_SCOPE, default=DEFAULT_SCOPE): vol.In(SCOPE_TYPES)],
    [vol.Optional(CONF_DEVICE): cv.positive_int].  [None] is a rejection
    ([vol.Invalid]). *)
Definition condition_schema (rc : raw_condition) : option cond :=
  t ← rc_sensor_type rc;
  t' ← vol_In SENSOR_TYPES t;
  sc ← vol_In SCOPE_TYPES (default DEFAULT_SCOPE (rc_scope rc));
  match rc_device rc with
  | None => Some [(CONF_SENSOR_TYPE, AStr t'); (CONF_SCOPE, AStr sc)]
  | Some n =>
      n' ← positive_int n;
      Some [(CONF_SENSOR_TYPE, AStr t'); (CONF_SCOPE, AStr sc);
            (CONF_DEVICE, AInt n')]
  end.

(** Condition dictionaries are mutable objects: they live in a store and a
    configuration refers to them by location.  The configuration dictionary
    itself and its list of conditions are never written by the validator,
    so they are plain values. *)
Abbreviation loc := nat (only parsing).
Abbreviation heap := (list cond) (only parsing).

Record config : Type := {
  cfg_items : PyDict.t atom;
  monitored_conditions : list loc
}.

(** The [memo] of [copy.deepcopy]: originals already copied, each with its
    copy, so that sharing inside the copied value is kept. *)
Abbreviation memo := (list (loc * loc)) (only parsing).

Fixpoint memo_get (l : loc) (m : memo) : option loc :=
  match m with
  | [] => None
  | (o, c) :: m' => if Nat.eqb l o then Some c else memo_get l m'
  end.

(** Deep copy of the list of conditions: every dictionary not copied yet
    is allocated anew with the same items (scalars are immutable and are
    shared).  [None] only for a dangling location. *)
Fixpoint deepcopy_conds (h : heap) (m : memo) (ls : list loc)
  : option (heap * memo * list loc) :=
  match ls with
  | [] => Some (h, m, [])
  | l :: ls' =>
      match memo_get l m with
      | Some l' =>
          '(h', m', ls'') ← deepcopy_conds h m ls';
          Some (h', m', l' :: ls'')
      | None =>
          d ← h !! l;
          let l' := length h in
          '(h', m', ls'') ← deepcopy_conds (h ++ [d]) ((l, l') :: m) ls';
          Some (h', m', l' :: ls'')
      end
  end.

(** [copy.deepcopy(config)] *)
Definition deepcopy (h : heap) (c : config) : option (heap * config) :=
  '(h', _, ls) ← deepcopy_conds h [] (monitored_conditions c);
  Some (h', {| cfg_items := cfg_items c; monitored_conditions := ls |}).

(** The loop of lines 91-96 over the conditions of the copy; a condition
    without [CONF_DEVICE] and without [CONF_SENSOR_TYPE] raises
    [KeyError] ([None]). *)
Fixpoint set_default_devices (h : heap) (ls : list loc) : option heap :=
  match ls with
  | [] => Some h
  | l :: ls' =>
      c ← h !! l;
      if PyDict.mem CONF_DEVICE c then set_default_devices h ls'
      else
        t ← PyDict.get CONF_SENSOR_TYPE c;
        let dev :=
          if decide (t = AStr TYPE_INVERTER) then DEFAULT_INVERTER
          else DEFAULT_DEVICE in
        set_default_devices (<[l := PyDict.set CONF_DEVICE (AInt dev) c]> h) ls'
  end.

(** [_device_id_validator(config)]: the store after the call and the
    configuration returned. *)
Definition _device_id_validator (h : heap) (c : config)
  : option (heap * config) :=
  '(h1, c') ← deepcopy h c;
  h2 ← set_default_devices h1 (monitored_conditions c');
  Some (h2, c').

(** *** Vocabulary for the validator's properties *)

(** What the loop makes of one condition: untouched when it has a device
    index, otherwise the default for its sensor type is added. *)
Definition with_default_device (c : cond) : option cond :=
  if PyDict.mem CONF_DEVICE c then Some c
  else
    t ← PyDict.get CONF_SENSOR_TYPE c;
    Some (PyDict.set CONF_DEVICE
            (AInt (if decide (t = AStr TYPE_INVERTER) then DEFAULT_INVERTER
                   else DEFAULT_DEVICE)) c).

(** Every condition of the configuration is a dictionary of the store and
    has the key the schema requires, [CONF_SENSOR_TYPE]. *)
Definition has_sensor_types (h : heap) (c : config) : Prop :=
  Forall (fun l => exists d, h !! l = Some d /\
                     is_Some (PyDict.get CONF_SENSOR_TYPE d))
         (monitored_conditions c).

(** While copying from [h0]: the store only grew, and the memo pairs
    originals of [h0] with fresh dictionaries holding the same items. *)
Definition copy_inv (h0 h : heap) (m : memo) : Prop :=
  (exists ext, h = h0 ++ ext) /\
  forall l l', memo_get l m = Some l' ->
    length h0 <= l' /\ exists d, h0 !! l = Some d /\ h !! l' = Some d.

(** ** The polling adapter (sensor.py, lines 172-248)

    One adapter and the sensor entities it creates form a [world]: the
    adapter's attributes, the store of entity objects (an entity is named
    by its location, the index it was allocated at), and what the adapter
    has sent outwards so far: log records, calls of the [add_entities]
    callback and update requests to the host. *)

Inductive log_record : Type :=
  | LogError (err : string)   (* "Failed to update: %s" *)
  | LogInfo (key : string).   (* "Discovered %s, adding as sensor" *)

(** How [await self._update()] ends: with the values of the telemetry
    client, or with its [FroniusError]. *)
Inductive fetch_result : Type :=
  | Fetched (values : PyDict.t entry)
  | FroniusError (err : string).

Record FroniusAdapter : Type := {
  _name : string;
  _device : Z;
  _fetched : PyDict.t entry;
  _available : bool;
  sensors : gset string;
  _registered_sensors : gset loc
}.

Record world : Type := {
  adapter : FroniusAdapter;
  entities : list FroniusTemplateSensor;
  log : list log_record;
  added : list (list loc);
  scheduled : list loc
}.

(** [FroniusAdapter.__init__] *)
Definition FroniusAdapter_init (name : string) (device : Z) : FroniusAdapter :=
  {| _name := name;
     _device := device;
     _fetched := [];
     _available := true;
     sensors := ∅;
     _registered_sensors := ∅ |}.

Definition world_init (name : string) (device : Z) : world :=
  {| adapter := FroniusAdapter_init name device;
     entities := [];
     log := [];
     added := [];
     scheduled := [] |}.

(** The properties [data] and [available] of the adapter. *)
Definition data (a : FroniusAdapter) : PyDict.t entry := _fetched a.
Definition available (a : FroniusAdapter) : bool := _available a.

(** Lines 221-224: every entry of the response that has a ["value"] is
    written into [attributes], which is the dictionary [self._fetched]
    itself. *)
Fixpoint copy_values (values attributes : PyDict.t entry) : PyDict.t entry :=
  match values with
  | [] => attributes
  | (key, e) :: rest =>
      copy_values rest
        (if PyDict.mem "value" e then PyDict.set key e attributes
         else attributes)
  end.

(** What the loop of lines 230-234 carries along: the seen-field set, the
    entity store, the log and [new_sensors]. *)
Record discovery : Type := {
  d_seen : gset string;
  d_entities : list FroniusTemplateSensor;
  d_log : list log_record;
  d_new : list loc
}.

(** The body of that loop: a key not seen yet is added to [self.sensors],
    logged, and a new entity for it is appended to [new_sensors]. *)
Definition discover_key (st : discovery) (key : string) : discovery :=
  if decide (key ∈ d_seen st) then st
  else
    {| d_seen := {[key]} ∪ d_seen st;
       d_entities := d_entities st ++ [FroniusTemplateSensor_init key];
       d_log := d_log st ++ [LogInfo key];
       d_new := d_new st ++ [length (d_entities st)] |}.

(** [for key in attributes: ...] *)
Definition discover (keys : list string) (st : discovery) : discovery :=
  fold_left discover_key keys st.

(** [FroniusAdapter.async_update], given how [self._update()] ended.  On
    [FroniusError] only the first failure of a streak clears the flag and
    logs, and the method returns (lines 208-215); otherwise the flag is
    set, the values are copied, new fields are discovered and handed to
    [self._add_entities], and an update is requested for every registered
    sensor (lines 217-239). *)
Definition FroniusAdapter_async_update (w : world) (r : fetch_result) : world :=
  let a := adapter w in
  match r with
  | FroniusError err =>
      if _available a then
        {| adapter :=
             {| _name := _name a; _device := _device a;
                _fetched := _fetched a;
                _available := false;
                sensors := sensors a;
                _registered_sensors := _registered_sensors a |};
           entities := entities w;
           log := log w ++ [LogError err];
           added := added w;
           scheduled := scheduled w |}
      else w
  | Fetched values =>
      let attributes := copy_values values (_fetched a) in
      let st :=
        discover (PyDict.keys attributes)
          {| d_seen := sensors a; d_entities := entities w;
             d_log := log w; d_new := [] |} in
      {| adapter :=
           {| _name := _name a; _device := _device a;
              _fetched := attributes;
              _available := true;
              sensors := d_seen st;
              _registered_sensors := _registered_sensors a |};
         entities := d_entities st;
         log := d_log st;
         added := added w ++ [d_new st];
         scheduled := scheduled w ++ elements (_registered_sensors a) |}
  end.

(** The world with [self._registered_sensors] replaced. *)
Definition set_registered (w : world) (r : gset loc) : world :=
  let a := adapter w in
  {| adapter :=
       {| _name := _name a; _device := _device a; _fetched := _fetched a;
          _available := _available a; sensors := sensors a;
          _registered_sensors := r |};
     entities := entities w; log := log w; added := added w;
     scheduled := scheduled w |}.

(** [FroniusAdapter.register(sensor)]; the callable it returns is
    [unregister]. *)
Definition register (w : world) (sensor : loc) : world :=
  set_registered w ({[sensor]} ∪ _registered_sensors (adapter w)).

(** [self._registered_sensors.remove(sensor)]: [KeyError] when the sensor
    is not registered. *)
Definition unregister (w : world) (sensor : loc) : option world :=
  if decide (sensor ∈ _registered_sensors (adapter w)) then
    Some (set_registered w (_registered_sensors (adapter w) ∖ {[sensor]}))
  else None.

(** The property [available] of an entity of the adapter [parent]. *)
Definition sensor_available (parent : FroniusAdapter)
  (s : FroniusTemplateSensor) : bool :=
  available parent.

(** Several successive polls. *)
Definition polls (w : world) (rs : list fetch_result) : world :=
  fold_left FroniusAdapter_async_update rs w.

Section Host.

(** [round(x, 2)] on floats, left to the interpreter. *)
Variable round2 : float -> float.

(** [FroniusTemplateSensor.async_update] for an entity of the adapter
    [parent]: [state] is [None] for a key the adapter's data lacks, and
    [state.get] then raises ([None] here). *)
Definition FroniusTemplateSensor_async_update (parent : FroniusAdapter)
  (s : FroniusTemplateSensor) : option FroniusTemplateSensor :=
  state ← PyDict.get (_key s) (data parent);
  let value := default PNone (PyDict.get "value" state) in
  let value := match value with PFloat f => PFloat (round2 f) | v => v end in
  Some {| _key := _key s;
          _attr_device_class := _attr_device_class s;
          _attr_state_class := _attr_state_class s;
          _attr_native_value := value;
          _attr_native_unit_of_measurement :=
            default PNone (PyDict.get "unit" state) |}.

(** What can happen to a world: the interval timer polls the adapter; the
    host adds an entity the adapter has created ([async_added_to_hass]
    registers it with its parent), removes a registered one (the callback
    [register] returned), or updates one. *)
Inductive event : Type :=
  | Poll (r : fetch_result)
  | SensorAdded (sensor : loc)
  | SensorRemoved (sensor : loc)
  | SensorUpdate (sensor : loc).

(** One event; [None] when the entity does not exist or the call raises. *)
Definition exec (w : world) (ev : event) : option world :=
  match ev with
  | Poll r => Some (FroniusAdapter_async_update w r)
  | SensorAdded l =>
      _ ← entities w !! l;
      Some (register w l)
  | SensorRemoved l => unregister w l
  | SensorUpdate l =>
      s ← entities w !! l;
      s' ← FroniusTemplateSensor_async_update (adapter w) s;
      Some {| adapter := adapter w;
              entities := <[l := s']> (entities w);
              log := log w; added := added w; scheduled := scheduled w |}
  end.

Fixpoint run (w : world) (evs : list event) : option world :=
  match evs with
  | [] => Some w
  | ev :: evs' => w' ← exec w ev; run w' evs'
  end.

(** No event of the list is a poll that fetched something. *)
Definition no_fetch (evs : list event) : Prop :=
  forall values, Poll (Fetched values) ∉ evs.

End Host.

(** *** Vocabulary for the adapter's properties *)

(** How many entities of a store were created for the field [key]. *)
Definition count_key (key : string) (ents : list FroniusTemplateSensor) : nat :=
  length (filter (fun s => _key s = key) ents).

(** The entities of [w'] that [w] did not have yet. *)
Definition new_entities (w w' : world) : list FroniusTemplateSensor :=
  drop (length (entities w)) (entities w').

(** The field names of a response: the keys whose entry has a ["value"]. *)
Definition is_field (values : PyDict.t entry) (key : string) : Prop :=
  exists e, (key, e) ∈ values /\ PyDict.mem "value" e = true.

(** The error records of a log. *)
Definition errors (lg : list log_record) : list string :=
  omap (fun r => match r with LogError e => Some e | LogInfo _ => None end) lg.

(** The keys of [keys], in order and without repeats, that are not in
    [seen]: those the discovery loop creates an entity for. *)
Fixpoint fresh_keys (keys : list string) (seen : gset string) : list string :=
  match keys with
  | [] => []
  | k :: keys' =>
      if decide (k ∈ seen) then fresh_keys keys' seen
      else k :: fresh_keys keys' ({[k]} ∪ seen)
  end.

(** The invariant of a world: the seen-field set, the keys of the entities
    created and the keys of the stored field map are the same set, no two
    entities share a key, and registered sensors are entities of the
    store. *)
Record world_inv (w : world) : Prop := {
  inv_seen_entities :
    forall k, k ∈ sensors (adapter w) <-> k ∈ map _key (entities w);
  inv_entities_nodup : NoDup (map _key (entities w));
  inv_seen_fetched :
    forall k, k ∈ sensors (adapter w) <-> k ∈ PyDict.keys (_fetched (adapter w));
  inv_registered :
    forall l, l ∈ _registered_sensors (adapter w) -> l < length (entities w)
}.

(** *** Sample data *)

Definition sample_response_1 : PyDict.t entry :=
  [ ("power_ac", [("value", PInt 1200); ("unit", PStr "W")]);
    ("status", [("Code", PInt 0)]) ].

Definition sample_response_2 : PyDict.t entry :=
  [ ("energy_day", [("value", PInt 2); ("unit", PStr "Wh")]) ].

Definition sample_heap : heap :=
  [ [(CONF_SENSOR_TYPE, AStr "inverter"); (CONF_SCOPE, AStr "device")];
    [(CONF_SENSOR_TYPE, AStr "meter"); (CONF_SCOPE, AStr "system");
     (CONF_DEVICE, AInt 5)];
    [(CONF_SENSOR_TYPE, AStr "storage"); (CONF_SCOPE, AStr "device")] ].

Definition sample_config : config :=
  {| cfg_items := [(CONF_RESOURCE, AStr "http://fronius.local")];
     monitored_conditions := [0; 1; 2] |}.

(** The adapter after its first poll fetched [sample_response_1], and
    after the host then added the entity created for ["power_ac"]. *)
Definition sample_world : world :=
  FroniusAdapter_async_update (world_init "Fronius Inverter 1" 1)
    (Fetched sample_response_1).

Definition sample_world_registered : world := register sample_world 0.

(** ** Setting the platform up (sensor.py, lines 124-169 and 251-304) *)

(** *** Strings *)

Fixpoint str_map (f : ascii -> ascii) (s : string) : string :=
  match s with
  | EmptyString => EmptyString
  | String c s' => String (f c) (str_map f s')
  end.

(** [s.replace(old, new)] for one-character [old] and [new]. *)
Definition replace_char (old new : ascii) (s : string) : string :=
  str_map (fun c => if Ascii.eqb c old then new else c) s.

Definition ascii_upper (c : ascii) : ascii :=
  let n := nat_of_ascii c in
  if Nat.leb 97 n && Nat.leb n 122 then ascii_of_nat (n - 32) else c.

Definition ascii_lower (c : ascii) : ascii :=
  let n := nat_of_ascii c in
  if Nat.leb 65 n && Nat.leb n 90 then ascii_of_nat (n + 32) else c.

(** [s.capitalize()] on ASCII text: the first character in upper case,
    the others in lower case. *)
Definition capitalize (s : string) : string :=
  match s with
  | EmptyString => EmptyString
  | String c s' => String (ascii_upper c) (str_map ascii_lower s')
  end.

(** [str(n)] for an [int]. *)
Definition str_of_int (n : Z) : string :=
  DecimalString.NilZero.string_of_int (Z.to_int n).

(** How an f-string renders a scalar. *)
Definition format_atom (a : atom) : string :=
  match a with
  | AStr s => s
  | AInt n => str_of_int n
  end.

(** *** Adapter classes and the calls they make *)

Inductive adapter_cls : Set :=
  | FroniusInverterSystem
  | FroniusInverterDevice
  | FroniusStorage
  | FroniusMeterSystem
  | FroniusMeterDevice
  | FroniusPowerFlow
  | FroniusLoggerInfo.

(** The methods of the telemetry client the adapters call. *)
Inductive bridge_call : Type :=
  | current_system_inverter_data
  | current_inverter_data (device : Z)
  | current_storage_data (device : Z)
  | current_system_meter_data
  | current_meter_data (device : Z)
  | current_power_flow
  | current_logger_info.

(** The [_update] method of each class, for an adapter whose [_device] is
    [device] (lines 254-304). *)
Definition _update (cls : adapter_cls) (device : Z) : bridge_call :=
  match cls with
  | FroniusInverterSystem => current_system_inverter_data
  | FroniusInverterDevice => current_inverter_data device
  | FroniusStorage => current_storage_data device
  | FroniusMeterSystem => current_system_meter_data
  | FroniusMeterDevice => current_meter_data device
  | FroniusPowerFlow => current_power_flow
  | FroniusLoggerInfo => current_logger_info
  end.

(** The choice of [adapter_cls] in lines 138-153. *)
Definition select_adapter_cls (sensor_type scope : atom) : adapter_cls :=
  if decide (sensor_type = AStr TYPE_INVERTER) then
    if decide (scope = AStr SCOPE_SYSTEM) then FroniusInverterSystem
    else FroniusInverterDevice
  else if decide (sensor_type = AStr TYPE_METER) then
    if decide (scope = AStr SCOPE_SYSTEM) then FroniusMeterSystem
    else FroniusMeterDevice
  else if decide (sensor_type = AStr TYPE_POWER_FLOW) then FroniusPowerFlow
  else if decide (sensor_type = AStr TYPE_LOGGER_INFO) then FroniusLoggerInfo
  else FroniusStorage.

(** The name of line 137. *)
Definition adapter_name (sensor_type : string) (scope device resource : atom)
  : string :=
  ("Fronius " ++ capitalize (replace_char "_" " " sensor_type) ++ " " ++
   (if decide (scope = AStr SCOPE_DEVICE) then format_atom device
    else SCOPE_SYSTEM) ++ " " ++ format_atom resource)%string.

(** An adapter object: its class and its world. *)
Record adapter_obj : Type := {
  a_cls : adapter_cls;
  a_world : world
}.

(** The body of the first loop (lines 134-155) for one condition: the
    three keys are read (a missing one raises [KeyError]), the sensor type
    must be a string for [replace], and the device is the [int] the
    adapter's constructor takes.  [None] when the body raises or the device
    is no [int]. *)
Definition create_adapter (resource : atom) (c : cond) : option adapter_obj :=
  device ← PyDict.get CONF_DEVICE c;
  sensor_type ← PyDict.get CONF_SENSOR_TYPE c;
  scope ← PyDict.get CONF_SCOPE c;
  t ← (match sensor_type with AStr t => Some t | AInt _ => None end);
  d ← (match device with AInt n => Some n | AStr _ => None end);
  Some {| a_cls := select_adapter_cls sensor_type scope;
          a_world := world_init (adapter_name t scope device resource) d |}.

(** The first loop: one adapter per monitored condition, in order. *)
Definition create_adapters (h : heap) (resource : atom) (ls : list loc)
  : option (list adapter_obj) :=
  mapM (fun l => c ← h !! l; create_adapter resource c) ls.

Definition DEFAULT_SCAN_INTERVAL : atom := AInt 60.
Definition CONF_SCAN_INTERVAL : string := "scan_interval".

(** What setting up leaves behind: the adapters and, for each call of
    [async_track_time_interval], the index of the adapter the timer polls
    and the interval (in seconds). *)
Record platform : Type := {
  adapters : list adapter_obj;
  timers : list (nat * atom)
}.

Section Bridge.

(** The telemetry client is an external collaborator: a state and what
    each call answers in that state. *)
Variable Bridge : Type.
Variable bridge_answer : Bridge -> bridge_call -> fetch_result * Bridge.

(** [await data_adapter.async_update()], the closure [fetch_data]. *)
Definition fetch_data (b : Bridge) (a : adapter_obj) : Bridge * adapter_obj :=
  let '(r, b') :=
    bridge_answer b (_update (a_cls a) (_device (adapter (a_world a)))) in
  (b', {| a_cls := a_cls a;
          a_world := FroniusAdapter_async_update (a_world a) r |}).

(** The second loop (lines 165-169): every adapter fetches once, then its
    timer is set. *)
Fixpoint fetch_all (b : Bridge) (scan_interval : atom) (i : nat)
  (todo : list adapter_obj) : Bridge * list adapter_obj * list (nat * atom) :=
  match todo with
  | [] => (b, [], [])
  | a :: rest =>
      let '(b1, a') := fetch_data b a in
      let '(b2, done, ts) := fetch_all b1 scan_interval (S i) rest in
      (b2, a' :: done, (i, scan_interval) :: ts)
  end.

(** [async_setup_platform]. *)
Definition async_setup_platform (b : Bridge) (h : heap) (c : config)
  : option (Bridge * platform) :=
  resource ← PyDict.get CONF_RESOURCE (cfg_items c);
  let scan_interval :=
    default DEFAULT_SCAN_INTERVAL (PyDict.get CONF_SCAN_INTERVAL (cfg_items c)) in
  created ← create_adapters h resource (monitored_conditions c);
  let '(b', done, ts) := fetch_all b scan_interval 0 created in
  Some (b', {| adapters := done; timers := ts |}).

(** A timer fires: the adapter it was set for fetches. *)
Definition timer_fires (b : Bridge) (p : platform) (i : nat)
  : option (Bridge * platform) :=
  a ← adapters p !! i;
  let '(b', a') := fetch_data b a in
  Some (b', {| adapters := <[i := a']> (adapters p); timers := timers p |}).

End Bridge.

(** *** The schema of the monitored conditions, with the validator *)

(** The list schema of lines 107-115 on its own: every condition goes
    through [condition_schema]; one rejection rejects the list. *)
Definition conditions_schema (rcs : list raw_condition) : option (list cond) :=
  mapM condition_schema rcs.

(** The conditions as [vol.All] of lines 101-120 hands them on: the
    dictionaries the schema built, in a store of their own, then
    [_device_id_validator]. *)
Definition validate_conditions (items : PyDict.t atom)
  (rcs : list raw_condition) : option (heap * config) :=
  ds ← conditions_schema rcs;
  _device_id_validator ds
    {| cfg_items := items; monitored_conditions := seq 0 (length ds) |}.

(** *** Vocabulary for further properties *)

(** The failure streaks that begin in a sequence of polls: a failed poll
    begins one when the adapter was available just before it. *)
Fixpoint failure_streaks (avail : bool) (rs : list fetch_result) : nat :=
  match rs with
  | [] => 0
  | Fetched _ :: rs' => failure_streaks true rs'
  | FroniusError _ :: rs' =>
      (if avail then 1 else 0) + failure_streaks false rs'
  end.

(** The keys the log reports as discovered, in order. *)
Definition discovered (lg : list log_record) : list string :=
  omap (fun r => match r with LogInfo k => Some k | LogError _ => None end) lg.

(** What an entity shows for a fetched value: floats are rounded. *)
Definition shown (round2 : float -> float) (v : pyval) : pyval :=
  match v with PFloat f => PFloat (round2 f) | _ => v end.

(** The requests for an update a step added. *)
Definition new_requests (w w' : world) : list loc :=
  drop (length (scheduled w)) (scheduled w').

(** What a world keeps true about the entities it has handed out: the
    calls of [add_entities] list every entity once, in order of creation;
    the log reports every creation; the entities follow the order of the
    keys of the stored field map; every request for an update names an
    entity of the store. *)
Record delivery_inv (w : world) : Prop := {
  inv_added : concat (added w) = seq 0 (length (entities w));
  inv_discovered : discovered (log w) = map _key (entities w);
  inv_order : map _key (entities w) = PyDict.keys (_fetched (adapter w));
  inv_scheduled : forall l, l ∈ scheduled w -> l < length (entities w)
}.

(** Every condition of the configuration is a dictionary of the store
    that has a device index or, failing that, a sensor type: what the
    loop of the validator needs to get through. *)
Definition can_default (h : heap) (c : config) : Prop :=
  Forall (fun l => exists d, h !! l = Some d /\
                     (PyDict.mem CONF_DEVICE d = true \/
                      is_Some (PyDict.get CONF_SENSOR_TYPE d)))
         (monitored_conditions c).

(** The device index a validated condition ends up with. *)
Definition effective_device (rc : raw_condition) (sensor_type : string) : Z :=
  match rc_device rc with
  | Some n => n
  | None =>
      if decide (sensor_type = TYPE_INVERTER) then DEFAULT_INVERTER
      else DEFAULT_DEVICE
  end.

(** What the name of an adapter says it reads: a device index, or the
    whole system. *)
Definition name_target (scope device : atom) : string :=
  if decide (scope = AStr SCOPE_DEVICE) then format_atom device
  else SCOPE_SYSTEM.

(** A condition with the three keys setting up reads: a sensor type that
    is a string, a scope, and a device index that is an integer. *)
Definition complete_condition (d : cond) : Prop :=
  exists t sc n,
    PyDict.get CONF_SENSOR_TYPE d = Some (AStr t) /\
    PyDict.get CONF_SCOPE d = Some sc /\
    PyDict.get CONF_DEVICE d = Some (AInt n).

(** *** More sample data *)

Definition sample_raw_conditions : list raw_condition :=
  [ {| rc_sensor_type := Some "inverter"; rc_scope := None; rc_device := None |};
    {| rc_sensor_type := Some "meter"; rc_scope := Some "system";
       rc_device := Some 3%Z |} ].

Definition sample_items : PyDict.t atom :=
  [(CONF_RESOURCE, AStr "http://fronius.local")].

(** A telemetry client that answers its first call and fails afterwards;
    its state counts the calls. *)
Definition sample_bridge (calls : nat) (c : bridge_call) : fetch_result * nat :=
  (match calls with
   | 0 => Fetched sample_response_1
   | _ => FroniusError "unreachable"
   end, S calls).

Definition sample_validated : heap * config :=
  default ([], {| cfg_items := []; monitored_conditions := [] |})
    (validate_conditions sample_items sample_raw_conditions).

(** * Properties *)

(** ** Facts about dictionaries *)
Module PyDictFacts.
Import PyDict.

Section Facts.
Context {V : Type}.
Implicit Types (d : PyDict.t V) (k : string) (v : V).

Lemma get_set_eq k v d : get k (set k v d) = Some v.
Proof.
  induction d as [|[k' v'] d IH]; simpl.
  - now rewrite String.eqb_refl.
  - destruct (String.eqb k k') eqn:E; simpl; rewrite E; auto.
Qed.

Lemma get_set_ne k k' v d : k <> k' -> get k' (set k v d) = get k' d.
Proof.
  intros Hne. induction d as [|[k0 v0] d IH]; simpl.
  - destruct (String.eqb k' k) eqn:E; auto.
    apply String.eqb_eq in E. congruence.
  - destruct (String.eqb k k0) eqn:E; simpl.
    + apply String.eqb_eq in E. subst k0.
      destruct (String.eqb k' k) eqn:E'; auto.
      apply String.eqb_eq in E'. congruence.
    + now rewrite IH.
Qed.

Lemma get_set k k' v d :
  get k' (set k v d) = if String.eqb k' k then Some v else get k' d.
Proof.
  destruct (String.eqb k' k) eqn:E.
  - apply String.eqb_eq in E. subst. apply get_set_eq.
  - apply get_set_ne. intros ->. now rewrite String.eqb_refl in E.
Qed.

Lemma get_Some_keys k d : is_Some (get k d) <-> k ∈ keys d.
Proof.
  induction d as [|[k' v'] d IH]; simpl.
  - split; [intros [? ?]; discriminate | intros H; inversion H].
  - destruct (String.eqb k k') eqn:E.
    + apply String.eqb_eq in E. subst. split; eauto. intros _. constructor.
    + rewrite IH. split; [now constructor|].
      intros H. inversion H; subst; auto.
      now rewrite String.eqb_refl in E.
Qed.

Lemma get_None_keys k d : get k d = None <-> k ∉ keys d.
Proof.
  rewrite <- get_Some_keys. destruct (get k d) as [v|].
  - split; [discriminate | intros H; exfalso; apply H; eauto].
  - split; [intros _ [? ?]; discriminate | reflexivity].
Qed.

Lemma mem_keys k d : mem k d = true <-> k ∈ keys d.
Proof.
  rewrite <- get_Some_keys. unfold mem.
  destruct (get k d); split; eauto; try discriminate.
  intros [? ?]; discriminate.
Qed.

Lemma mem_false_keys k d : mem k d = false <-> k ∉ keys d.
Proof.
  rewrite <- mem_keys. destruct (mem k d); split; auto; try discriminate.
  intros H. exfalso. now apply H.
Qed.

Lemma keys_set k v d k' : k' ∈ keys (set k v d) <-> k' = k \/ k' ∈ keys d.
Proof.
  rewrite <- !get_Some_keys, get_set.
  destruct (String.eqb k' k) eqn:E.
  - apply String.eqb_eq in E. split; eauto.
  - split; auto. intros [->|H]; auto. now rewrite String.eqb_refl in E.
Qed.

Lemma keys_set_mem k v d : mem k d = true -> keys (set k v d) = keys d.
Proof.
  unfold mem. induction d as [|[k' v'] d IH]; simpl; [discriminate|].
  destruct (String.eqb k k') eqn:E; simpl; auto.
  intros H. now rewrite IH.
Qed.

Lemma keys_set_fresh k v d : mem k d = false -> keys (set k v d) = keys d ++ [k].
Proof.
  unfold mem. induction d as [|[k' v'] d IH]; simpl; auto.
  destruct (String.eqb k k') eqn:E; simpl; [discriminate|].
  intros H. now rewrite IH.
Qed.

Lemma keys_set_NoDup k v d : NoDup (keys d) -> NoDup (keys (set k v d)).
Proof.
  intros Hnd. destruct (mem k d) eqn:E.
  - now rewrite keys_set_mem.
  - rewrite keys_set_fresh by assumption.
    apply NoDup_app. split; [assumption|]. split.
    + intros x Hx Hk. apply list_elem_of_singleton in Hk. subst.
      apply mem_false_keys in E. contradiction.
    + apply NoDup_singleton.
Qed.

End Facts.
End PyDictFacts.

(** ** Sensor classification *)

Lemma class_of_prefix_first {C : Type} (table : list (string * C)) key i cls :
  first_match table key i cls -> class_of_prefix table key = Some cls.
Proof.
  revert i. induction table as [|[pre c] rest IH]; intros i [[p [Hi Hp]] Hlt].
  - discriminate.
  - simpl. destruct i as [|i].
    + simpl in Hi. injection Hi as -> ->. now rewrite Hp.
    + rewrite (Hlt 0 pre c); [|lia|reflexivity].
      apply (IH i). split; [now exists p|].
      intros j pre' cls' Hj Hl. apply (Hlt (S j) pre' cls'); [lia|exact Hl].
Qed.

Lemma class_of_prefix_Some {C : Type} (table : list (string * C)) key cls :
  class_of_prefix table key = Some cls -> exists i, first_match table key i cls.
Proof.
  induction table as [|[pre c] rest IH]; simpl; [discriminate|].
  destruct (startswith key pre) eqn:E.
  - intros [= ->]. exists 0. split; [exists pre; auto|]. intros; lia.
  - intros H. destruct (IH H) as [i [[p [Hi Hp]] Hlt]]. exists (S i).
    split; [exists p; auto|].
    intros [|j] pre' cls' Hj Hl; simpl in Hl.
    + now injection Hl as <- <-.
    + apply (Hlt j pre' cls'); [lia|exact Hl].
Qed.

Lemma class_of_prefix_None {C : Type} (table : list (string * C)) key :
  class_of_prefix table key = None <-> no_match table key.
Proof.
  unfold no_match. induction table as [|[pre c] rest IH]; simpl.
  - split; [intros _ ? ? H; inversion H | reflexivity].
  - destruct (startswith key pre) eqn:E.
    + split; [discriminate|]. intros H.
      rewrite (H pre c) in E; [discriminate | constructor].
    + rewrite IH. split.
      * intros H p cl Hin. inversion Hin; subst; eauto.
      * intros H p cl Hin. apply (H p cl). now constructor.
Qed.

Lemma power_factor_skips_earlier_rows key pre :
  startswith key "power_factor" = true ->
  pre = "state_of_charge" \/ pre = "temperature" ->
  startswith key pre = false.
Proof.
  unfold startswith. intros H Hpre.
  destruct key as [|a key]; [discriminate|]. cbn [String.prefix] in H.
  destruct (Ascii.ascii_dec _ a) as [<-|]; [|discriminate].
  destruct Hpre as [-> | ->]; reflexivity.
Qed.

Lemma power_factor_first_match {C : Type} (table : list (string * C))
  r0 c0 r1 c1 c2 rest key :
  table = (r0, c0) :: (r1, c1) :: ("power_factor", c2) :: rest ->
  r0 = "state_of_charge" -> r1 = "temperature" ->
  startswith key "power_factor" = true ->
  class_of_prefix table key = Some c2.
Proof.
  intros -> -> -> H. simpl.
  rewrite (power_factor_skips_earlier_rows key "state_of_charge" H) by auto.
  rewrite (power_factor_skips_earlier_rows key "temperature" H) by auto.
  now rewrite H.
Qed.

(** C4: the device class and the state class a sensor gets at construction
    are those of the first row of the ordered prefix table whose prefix the
    field name starts with, and only those; a name starting with
    [power_factor] gets the power-factor class and not the power class; a
    name no prefix matches gets neither class. *)
Theorem sensor_class_is_first_prefix_match (key : string) :
  let s := FroniusTemplateSensor_init key in
  (forall dc, _attr_device_class s = Some dc <->
     exists i, first_match PREFIX_DEVICE_CLASS_MAPPING key i dc) /\
  (forall sc, _attr_state_class s = Some sc <->
     exists i, first_match PREFIX_STATE_CLASS_MAPPING key i sc) /\
  (_attr_device_class s = None <-> no_match PREFIX_DEVICE_CLASS_MAPPING key) /\
  (_attr_state_class s = None <-> no_match PREFIX_STATE_CLASS_MAPPING key) /\
  (startswith key "power_factor" = true ->
     _attr_device_class s = Some DEVICE_CLASS_POWER_FACTOR /\
     _attr_state_class s = Some STATE_CLASS_MEASUREMENT).
Proof.
  cbv zeta. unfold FroniusTemplateSensor_init.
  cbn [_attr_device_class _attr_state_class].
  split; [|split; [|split; [|split]]].
  - intros dc. split; [apply class_of_prefix_Some|].
    intros [i H]. exact (class_of_prefix_first _ _ _ _ H).
  - intros sc. split; [apply class_of_prefix_Some|].
    intros [i H]. exact (class_of_prefix_first _ _ _ _ H).
  - apply class_of_prefix_None.
  - apply class_of_prefix_None.
  - intros H. split;
      eapply power_factor_first_match; try reflexivity; exact H.
Qed.

(** ** Configuration validation *)

Lemma vol_In_spec (container : list string) (v : string) :
  vol_In container v = if decide (v ∈ container) then Some v else None.
Proof.
  unfold vol_In. destruct (existsb (String.eqb v) container) eqn:E.
  - apply existsb_exists in E as [x [Hin Hx]].
    apply String.eqb_eq in Hx. subst x. apply list_elem_of_In in Hin.
    now rewrite decide_True.
  - rewrite decide_False; [reflexivity|]. intros Hin.
    apply list_elem_of_In in Hin.
    assert (existsb (String.eqb v) container = true) as E'.
    { apply existsb_exists. exists v. split; [assumption|].
      apply String.eqb_refl. }
    congruence.
Qed.

Lemma positive_int_spec (n : Z) :
  positive_int n = if decide (0 <= n)%Z then Some n else None.
Proof.
  unfold positive_int. destruct (Z.leb_spec 0 n).
  - now rewrite decide_True.
  - rewrite decide_False; [reflexivity | lia].
Qed.

Lemma sensor_types_enum (t : string) :
  t ∈ SENSOR_TYPES <->
  t = "inverter" \/ t = "storage" \/ t = "meter" \/ t = "power_flow" \/
  t = "logger_info".
Proof.
  unfold SENSOR_TYPES, TYPE_INVERTER, TYPE_STORAGE, TYPE_METER,
    TYPE_POWER_FLOW, TYPE_LOGGER_INFO.
  rewrite !elem_of_cons, elem_of_nil. tauto.
Qed.

Lemma scope_types_enum (s : string) :
  s ∈ SCOPE_TYPES <-> s = "device" \/ s = "system".
Proof.
  unfold SCOPE_TYPES, SCOPE_DEVICE, SCOPE_SYSTEM.
  rewrite !elem_of_cons, elem_of_nil. tauto.
Qed.

(** C8: the schema accepts a monitored condition exactly when its sensor
    type is given and is one of the five enumerated values, its scope, when
    given, is one of the two enumerated values, and its device index, when
    given, is a non-negative integer; every other sensor type or scope is
    rejected. *)
Theorem condition_schema_accepts (rc : raw_condition) :
  is_Some (condition_schema rc) <->
  (exists t, rc_sensor_type rc = Some t /\
     (t = "inverter" \/ t = "storage" \/ t = "meter" \/ t = "power_flow" \/
      t = "logger_info")) /\
  (forall s, rc_scope rc = Some s -> s = "device" \/ s = "system") /\
  (forall n, rc_device rc = Some n -> (0 <= n)%Z).
Proof.
  destruct rc as [ty sc dev]. unfold condition_schema.
  cbn [rc_sensor_type rc_scope rc_device].
  split.
  - intros [d Hd]. destruct ty as [t|]; [|discriminate]. cbn [mbind option_bind] in Hd.
    rewrite !vol_In_spec in Hd.
    destruct (decide (t ∈ SENSOR_TYPES)) as [Ht|]; [|simpl in Hd; discriminate].
    cbn [mbind option_bind] in Hd.
    destruct (decide (default DEFAULT_SCOPE sc ∈ SCOPE_TYPES)) as [Hs|];
      [|simpl in Hd; discriminate].
    cbn [mbind option_bind] in Hd. split; [|split].
    + exists t. split; [reflexivity|]. now apply sensor_types_enum.
    + intros s ->. now apply scope_types_enum.
    + intros n ->. rewrite positive_int_spec in Hd.
      destruct (decide (0 <= n)%Z); [assumption|simpl in Hd; discriminate].
  - intros [[t [-> Ht]] [Hs Hn]]. cbn [mbind option_bind].
    apply sensor_types_enum in Ht.
    assert (default DEFAULT_SCOPE sc ∈ SCOPE_TYPES) as Hsc.
    { apply scope_types_enum. destruct sc as [s|]; simpl; [now apply Hs|].
      now left. }
    rewrite !vol_In_spec.
    rewrite (decide_True _ _ Ht). cbn [mbind option_bind].
    rewrite (decide_True _ _ Hsc). cbn [mbind option_bind].
    destruct dev as [n|]; [|eauto].
    rewrite positive_int_spec, decide_True by now apply Hn.
    cbn [mbind option_bind]. eauto.
Qed.

(** What the schema hands on always carries a sensor type. *)
Lemma condition_schema_sensor_type (rc : raw_condition) (d : cond) :
  condition_schema rc = Some d ->
  exists t, rc_sensor_type rc = Some t /\
            PyDict.get CONF_SENSOR_TYPE d = Some (AStr t) /\
            PyDict.mem CONF_DEVICE d = bool_decide (is_Some (rc_device rc)).
Proof.
  destruct rc as [ty sc dev]. unfold condition_schema.
  cbn [rc_sensor_type rc_scope rc_device].
  destruct ty as [t|]; [|simpl; discriminate]. cbn [mbind option_bind].
  rewrite !vol_In_spec.
  destruct (decide (t ∈ SENSOR_TYPES)); [|simpl; discriminate]. cbn [mbind option_bind].
  destruct (decide (default DEFAULT_SCOPE sc ∈ SCOPE_TYPES)); [|simpl; discriminate].
  cbn [mbind option_bind]. destruct dev as [n|].
  - rewrite positive_int_spec. destruct (decide (0 <= n)%Z); [|simpl; discriminate].
    intros [= <-]. exists t. repeat split.
  - intros [= <-]. exists t. repeat split.
Qed.

(** *** The device-index validator *)

Lemma deepcopy_conds_spec (h0 : heap) (ls : list loc) :
  forall (h : heap) (m : memo),
    copy_inv h0 h m -> Forall (fun l => l < length h0) ls ->
    exists h' m' ls',
      deepcopy_conds h m ls = Some (h', m', ls') /\
      copy_inv h0 h' m' /\
      (forall l l', memo_get l m = Some l' -> memo_get l m' = Some l') /\
      Forall2 (fun l l' => memo_get l m' = Some l') ls ls'.
Proof.
  induction ls as [|l ls IH]; intros h m Hinv Hls.
  - exists h, m, []. split; [reflexivity|]. split; [assumption|].
    split; [auto | constructor].
  - apply Forall_cons in Hls as [Hl Hls]. simpl.
    destruct (memo_get l m) as [l'|] eqn:Hm.
    + destruct (IH h m Hinv Hls) as (h' & m' & ls' & -> & Hinv' & Hmono & HF).
      exists h', m', (l' :: ls'). simpl. split; [reflexivity|].
      split; [assumption|]. split; [assumption|]. constructor; auto.
    + destruct Hinv as [[ext ->] Hmemo].
      destruct (lookup_lt_is_Some_2 h0 l Hl) as [d Hd].
      rewrite (lookup_app_l_Some _ _ _ _ Hd). simpl.
      assert (copy_inv h0 ((h0 ++ ext) ++ [d])
                ((l, length (h0 ++ ext)) :: m)) as Hinv1.
      { split; [exists (ext ++ [d]); now rewrite app_assoc|].
        intros x x'. simpl. destruct (Nat.eqb x l) eqn:E.
        - apply Nat.eqb_eq in E. subst x. intros [= <-]. split.
          + rewrite length_app. lia.
          + exists d. split; [assumption|]. apply list_lookup_middle.
            reflexivity.
        - intros Hx. destruct (Hmemo x x' Hx) as [Hge [d' [Hd1 Hd2]]].
          split; [assumption|]. exists d'. split; [assumption|].
          now apply lookup_app_l_Some. }
      destruct (IH _ _ Hinv1 Hls) as (h' & m' & ls' & -> & Hinv' & Hmono & HF).
      exists h', m', (length (h0 ++ ext) :: ls'). simpl.
      split; [reflexivity|]. split; [assumption|]. split.
      * intros x x' Hx. apply Hmono. simpl.
        destruct (Nat.eqb x l) eqn:E; [|assumption].
        apply Nat.eqb_eq in E. subst x. congruence.
      * constructor; [|assumption]. apply Hmono. simpl.
        now rewrite Nat.eqb_refl.
Qed.

Lemma with_default_device_has_device (c c' : cond) :
  with_default_device c = Some c' -> PyDict.mem CONF_DEVICE c' = true.
Proof.
  unfold with_default_device. destruct (PyDict.mem CONF_DEVICE c) eqn:E.
  - now intros [= <-].
  - destruct (PyDict.get CONF_SENSOR_TYPE c); [|discriminate]. simpl.
    intros [= <-]. unfold PyDict.mem.
    now rewrite PyDictFacts.get_set_eq.
Qed.

Lemma with_default_device_idem (c c' : cond) :
  with_default_device c = Some c' -> with_default_device c' = Some c'.
Proof.
  intros H. apply with_default_device_has_device in H.
  unfold with_default_device. now rewrite H.
Qed.

Lemma set_default_devices_spec (ls : list loc) :
  forall h : heap,
    Forall (fun l => exists c, h !! l = Some c /\
                       is_Some (with_default_device c)) ls ->
    exists h',
      set_default_devices h ls = Some h' /\
      length h' = length h /\
      (forall l, l ∉ ls -> h' !! l = h !! l) /\
      (forall l c, l ∈ ls -> h !! l = Some c ->
         h' !! l = with_default_device c).
Proof.
  induction ls as [|l ls IH]; intros h Hall.
  - exists h. repeat split; auto. intros l c Hin. inversion Hin.
  - apply Forall_cons in Hall as [(c & Hc & [c1 Hc1]) Hall].
    simpl. rewrite Hc. simpl.
    pose proof Hc1 as Hwd. unfold with_default_device in Hc1.
    destruct (PyDict.mem CONF_DEVICE c) eqn:Hmem.
    + injection Hc1 as <-.
      destruct (IH h Hall) as (h' & -> & Hlen & Hout & Hin).
      exists h'. repeat split; auto.
      * intros x Hx. apply Hout. intros Hx'. apply Hx. now right.
      * intros x cx Hx Hcx. destruct (decide (x ∈ ls)) as [Hxl|Hxl].
        -- now apply Hin.
        -- apply elem_of_cons in Hx as [->|Hx]; [|contradiction].
           rewrite (Hout l Hxl). congruence.
    + destruct (PyDict.get CONF_SENSOR_TYPE c) as [t|]; [|discriminate].
      simpl in Hc1 |- *. injection Hc1 as Hc1.
      rewrite Hc1.
      assert (l < length h) as Hlt by (eapply lookup_lt_Some; eauto).
      assert (Forall (fun l0 => exists c0, <[l:=c1]> h !! l0 = Some c0 /\
                        is_Some (with_default_device c0)) ls) as Hall1.
      { eapply Forall_impl; [exact Hall|]. intros x (cx & Hcx & Hs).
        destruct (decide (x = l)) as [->|Hne].
        - exists c1. rewrite list_lookup_insert_eq by assumption.
          split; [reflexivity|]. exists c1.
          eapply with_default_device_idem; eauto.
        - exists cx. rewrite list_lookup_insert_ne by auto. auto. }
      destruct (IH _ Hall1) as (h' & -> & Hlen & Hout & Hin).
      exists h'. split; [reflexivity|]. split.
      { now rewrite Hlen, length_insert. }
      split.
      * intros x Hx. rewrite Hout.
        -- apply list_lookup_insert_ne. intros ->. apply Hx. now left.
        -- intros Hx'. apply Hx. now right.
      * intros x cx Hx Hcx. destruct (decide (x = l)) as [->|Hne].
        -- assert (cx = c) as -> by congruence. rewrite Hwd.
           destruct (decide (l ∈ ls)) as [Hl|Hl].
           ++ rewrite (Hin l c1 Hl).
              ** eapply with_default_device_idem; eauto.
              ** now apply list_lookup_insert_eq.
           ++ rewrite (Hout l Hl). now apply list_lookup_insert_eq.
        -- apply elem_of_cons in Hx as [->|Hx]; [contradiction|].
           apply Hin; [assumption|].
           rewrite list_lookup_insert_ne by auto. assumption.
Qed.

Lemma Forall2_lookup_memo (m : memo) (ls ls' : list loc) i l :
  Forall2 (fun l l' => memo_get l m = Some l') ls ls' ->
  ls !! i = Some l -> exists l', ls' !! i = Some l' /\ memo_get l m = Some l'.
Proof.
  intros HF Hl. destruct (Forall2_lookup_l _ _ _ _ _ HF Hl) as [l' [? ?]].
  eauto.
Qed.

(** The validator as a whole: it succeeds on a configuration whose
    conditions carry a sensor type, leaves the store it was given as it
    was, and returns fresh dictionaries, one per condition, each holding
    what [with_default_device] makes of the original. *)
Lemma device_id_validator_spec (h : heap) (c : config) :
  has_sensor_types h c ->
  exists h' c',
    _device_id_validator h c = Some (h', c') /\
    cfg_items c' = cfg_items c /\
    (forall l, l < length h -> h' !! l = h !! l) /\
    Forall2 (fun l l' => length h <= l' /\
               exists d, h !! l = Some d /\ h' !! l' = with_default_device d)
            (monitored_conditions c) (monitored_conditions c').
Proof.
  intros Hwf. unfold _device_id_validator, deepcopy.
  assert (copy_inv h h []) as Hinv0.
  { split; [exists []; now rewrite app_nil_r | intros ? ?; discriminate]. }
  assert (Forall (fun l => l < length h) (monitored_conditions c)) as Hlt.
  { eapply Forall_impl; [exact Hwf|]. intros l (d & Hd & _).
    eapply lookup_lt_Some; eauto. }
  destruct (deepcopy_conds_spec h _ h [] Hinv0 Hlt)
    as (h1 & m1 & ls1 & -> & [[ext ->] Hmemo] & _ & HF).
  cbn [mbind option_bind monitored_conditions].
  assert (forall l l', memo_get l m1 = Some l' ->
            exists d, h !! l = Some d /\ (h ++ ext) !! l' = Some d /\
                      length h <= l') as Hm.
  { intros l l' Hl. destruct (Hmemo l l' Hl) as [? [d [? ?]]]. eauto. }
  assert (Forall (fun l' => exists c0, (h ++ ext) !! l' = Some c0 /\
                    is_Some (with_default_device c0)) ls1) as Hall.
  { apply Forall_forall. intros l' Hin.
    apply list_elem_of_lookup in Hin as [i Hi].
    destruct (Forall2_lookup_r _ _ _ _ _ HF Hi) as (l & Hl & Hml).
    destruct (Hm l l' Hml) as (d & Hd & Hd' & _).
    exists d. split; [assumption|].
    apply list_elem_of_lookup_2 in Hl.
    unfold has_sensor_types in Hwf. rewrite Forall_forall in Hwf.
    destruct (Hwf l Hl) as (d0 & Hd0 & [t Ht]).
    assert (d0 = d) as -> by congruence.
    unfold with_default_device. rewrite Ht.
    destruct (PyDict.mem CONF_DEVICE d); simpl; eauto. }
  destruct (set_default_devices_spec ls1 _ Hall) as (h2 & -> & Hlen & Hout & Hin).
  cbn [mbind option_bind].
  eexists _, _. split; [reflexivity|]. cbn [cfg_items monitored_conditions].
  split; [reflexivity|]. split.
  - intros l Hl. rewrite Hout.
    + now apply lookup_app_l.
    + intros Hl1. apply list_elem_of_lookup in Hl1 as [i Hi].
      destruct (Forall2_lookup_r _ _ _ _ _ HF Hi) as (l0 & _ & Hml).
      destruct (Hm _ _ Hml) as (_ & _ & _ & Hge). lia.
  - eapply Forall2_impl; [|exact (fun _ _ H => H)].
    apply Forall2_same_length_lookup. split; [eapply Forall2_length; eauto|].
    intros i l l' Hl Hl'.
    destruct (Forall2_lookup_memo _ _ _ _ _ HF Hl) as (l1 & Hl1 & Hml).
    assert (l1 = l') as -> by congruence.
    destruct (Hm _ _ Hml) as (d & Hd & Hd' & Hge).
    split; [assumption|]. exists d. split; [assumption|].
    apply Hin; [|assumption]. eapply list_elem_of_lookup_2; eauto.
Qed.

(** C3: on a configuration that went through the schema (every condition
    carries its sensor type), the validator returns, and a condition that
    omits the device index gets device index 1 when its sensor type is
    [inverter] and 0 for every other sensor type. *)
Theorem device_id_default (h : heap) (c : config) :
  has_sensor_types h c ->
  exists h' c',
    _device_id_validator h c = Some (h', c') /\
    forall i l d t,
      monitored_conditions c !! i = Some l ->
      h !! l = Some d ->
      PyDict.mem CONF_DEVICE d = false ->
      PyDict.get CONF_SENSOR_TYPE d = Some t ->
      exists l' d',
        monitored_conditions c' !! i = Some l' /\
        h' !! l' = Some d' /\
        PyDict.get CONF_DEVICE d' =
          Some (AInt (if decide (t = AStr "inverter") then 1 else 0)).
Proof.
  intros Hwf.
  destruct (device_id_validator_spec h c Hwf) as (h' & c' & Hv & _ & _ & HF).
  exists h', c'. split; [assumption|].
  intros i l d t Hl Hd Hmem Ht.
  destruct (Forall2_lookup_l _ _ _ _ _ HF Hl) as (l' & Hl' & _ & d0 & Hd0 & Hd').
  assert (d0 = d) as -> by congruence.
  unfold with_default_device in Hd'. rewrite Hmem, Ht in Hd'. simpl in Hd'.
  eexists l', _. split; [assumption|]. split; [exact Hd'|].
  apply PyDictFacts.get_set_eq.
Qed.

(** C9: the validator works on a deep copy: every dictionary of the store
    it was given is unchanged afterwards, the conditions it returns are
    fresh dictionaries, a condition that carries a device index comes back
    with exactly its items, and a condition that lacks one comes back with
    every other key unchanged. *)
Theorem device_id_validator_frame (h : heap) (c : config) :
  has_sensor_types h c ->
  exists h' c',
    _device_id_validator h c = Some (h', c') /\
    (forall l, l < length h -> h' !! l = h !! l) /\
    cfg_items c' = cfg_items c /\
    length (monitored_conditions c') = length (monitored_conditions c) /\
    (forall l', l' ∈ monitored_conditions c' -> length h <= l') /\
    forall i l d,
      monitored_conditions c !! i = Some l ->
      h !! l = Some d ->
      exists l' d',
        monitored_conditions c' !! i = Some l' /\
        h' !! l' = Some d' /\
        (PyDict.mem CONF_DEVICE d = true -> d' = d) /\
        (forall k, k <> CONF_DEVICE -> PyDict.get k d' = PyDict.get k d).
Proof.
  intros Hwf.
  destruct (device_id_validator_spec h c Hwf) as (h' & c' & Hv & Hit & Hfr & HF).
  exists h', c'. split; [assumption|]. split; [assumption|].
  split; [assumption|]. split; [symmetry; eapply Forall2_length; eauto|].
  split.
  - intros l' Hin. apply list_elem_of_lookup in Hin as [i Hi].
    destruct (Forall2_lookup_r _ _ _ _ _ HF Hi) as (l & _ & Hge & _).
    assumption.
  - intros i l d Hl Hd.
    destruct (Forall2_lookup_l _ _ _ _ _ HF Hl) as (l' & Hl' & _ & d0 & Hd0 & Hd').
    assert (d0 = d) as -> by congruence.
    unfold with_default_device in Hd'.
    destruct (PyDict.mem CONF_DEVICE d) eqn:Hmem.
    + exists l', d. repeat split; auto.
    + unfold has_sensor_types in Hwf. rewrite Forall_forall in Hwf.
      apply list_elem_of_lookup_2 in Hl.
      destruct (Hwf l Hl) as (d1 & Hd1 & [t Ht]).
      assert (d1 = d) as -> by congruence.
      rewrite Ht in Hd'. simpl in Hd'.
      eexists l', _. split; [assumption|]. split; [exact Hd'|].
      split; [discriminate|].
      intros k Hk. apply PyDictFacts.get_set_ne. congruence.
Qed.

(** ** The polling adapter *)

(** *** Copying the fetched values *)

Lemma copy_values_keys (values attributes : PyDict.t entry) (k : string) :
  k ∈ PyDict.keys (copy_values values attributes) <->
  k ∈ PyDict.keys attributes \/ is_field values k.
Proof.
  revert attributes. induction values as [|[key e] rest IH]; intros attrs.
  - simpl. split; [auto|]. intros [H|(e & He & _)]; [auto|inversion He].
  - simpl. rewrite IH. unfold is_field. split.
    + intros [H|(e' & He' & Hv)].
      * destruct (PyDict.mem "value" e) eqn:E; [|auto].
        apply PyDictFacts.keys_set in H as [->|H]; [|auto].
        right. exists e. split; [constructor | assumption].
      * right. exists e'. split; [now constructor | assumption].
    + intros [H|(e' & He' & Hv)].
      * left. destruct (PyDict.mem "value" e); [|assumption].
        apply PyDictFacts.keys_set. auto.
      * apply elem_of_cons in He' as [[= -> ->]|He'].
        -- left. rewrite Hv. apply PyDictFacts.keys_set. auto.
        -- right. eauto.
Qed.

Lemma copy_values_keys_mono (values attributes : PyDict.t entry) (k : string) :
  k ∈ PyDict.keys attributes -> k ∈ PyDict.keys (copy_values values attributes).
Proof. intros H. apply copy_values_keys. auto. Qed.

Lemma copy_values_get (values attributes : PyDict.t entry) (k : string) :
  NoDup (PyDict.keys values) ->
  PyDict.get k (copy_values values attributes) =
  match PyDict.get k values with
  | Some e => if PyDict.mem "value" e then Some e else PyDict.get k attributes
  | None => PyDict.get k attributes
  end.
Proof.
  revert attributes. induction values as [|[key e] rest IH]; intros attrs Hnd.
  - reflexivity.
  - simpl in Hnd. apply NoDup_cons in Hnd as [Hkey Hnd]. simpl.
    rewrite IH by assumption.
    destruct (String.eqb k key) eqn:E.
    + apply String.eqb_eq in E. subst key.
      apply PyDictFacts.get_None_keys in Hkey. rewrite Hkey.
      destruct (PyDict.mem "value" e); [|reflexivity].
      apply PyDictFacts.get_set_eq.
    + assert (key <> k) as Hne.
      { intros ->. now rewrite String.eqb_refl in E. }
      destruct (PyDict.mem "value" e);
        [rewrite (PyDictFacts.get_set_ne _ _ _ _ Hne)|]; reflexivity.
Qed.

(** *** Discovering new fields *)

Lemma fresh_keys_elem (keys : list string) (seen : gset string) (k : string) :
  k ∈ fresh_keys keys seen <-> k ∈ keys /\ k ∉ seen.
Proof.
  revert seen. induction keys as [|k0 keys IH]; intros seen; simpl.
  - split; [intros H; inversion H | intros [H _]; inversion H].
  - destruct (decide (k0 ∈ seen)) as [Hin|Hout].
    + rewrite IH, elem_of_cons. split; [tauto|].
      intros [[->|H] Hs]; [contradiction | auto].
    + rewrite !elem_of_cons, IH. split.
      * intros [->|[H Hs]]; [auto|]. split; [auto|].
        intros Hk. apply Hs. now apply elem_of_union_r.
      * intros [[->|H] Hs]; [auto|].
        destruct (decide (k = k0)) as [->|Hne]; [auto|].
        right. split; [assumption|].
        rewrite elem_of_union, elem_of_singleton. tauto.
Qed.

Lemma fresh_keys_NoDup (keys : list string) (seen : gset string) :
  NoDup (fresh_keys keys seen).
Proof.
  revert seen. induction keys as [|k0 keys IH]; intros seen; simpl.
  - constructor.
  - destruct (decide (k0 ∈ seen)); [apply IH|].
    constructor; [|apply IH]. rewrite fresh_keys_elem.
    intros [_ H]. apply H. now apply elem_of_union_l, elem_of_singleton.
Qed.

Lemma discover_entities (keys : list string) (st : discovery) :
  d_entities (discover keys st) =
  d_entities st ++ map FroniusTemplateSensor_init (fresh_keys keys (d_seen st)).
Proof.
  unfold discover. revert st. induction keys as [|k keys IH]; intros st; simpl.
  - now rewrite app_nil_r.
  - rewrite IH. unfold discover_key.
    destruct (decide (k ∈ d_seen st)); [reflexivity|]. simpl.
    now rewrite <- app_assoc.
Qed.

Lemma discover_log (keys : list string) (st : discovery) :
  d_log (discover keys st) =
  d_log st ++ map LogInfo (fresh_keys keys (d_seen st)).
Proof.
  unfold discover. revert st. induction keys as [|k keys IH]; intros st; simpl.
  - now rewrite app_nil_r.
  - rewrite IH. unfold discover_key.
    destruct (decide (k ∈ d_seen st)); [reflexivity|]. simpl.
    now rewrite <- app_assoc.
Qed.

Lemma discover_new (keys : list string) (st : discovery) :
  d_new (discover keys st) =
  d_new st ++ seq (length (d_entities st))
                  (length (fresh_keys keys (d_seen st))).
Proof.
  unfold discover. revert st. induction keys as [|k keys IH]; intros st; simpl.
  - now rewrite app_nil_r.
  - rewrite IH. unfold discover_key.
    destruct (decide (k ∈ d_seen st)); [reflexivity|]. simpl.
    rewrite <- app_assoc, length_app. simpl.
    now rewrite Nat.add_1_r.
Qed.

Lemma discover_seen (keys : list string) (st : discovery) (k : string) :
  k ∈ d_seen (discover keys st) <-> k ∈ d_seen st \/ k ∈ keys.
Proof.
  unfold discover. revert st. induction keys as [|k0 keys IH]; intros st; simpl.
  - split; [auto|]. intros [H|H]; [auto|inversion H].
  - rewrite IH, elem_of_cons. unfold discover_key.
    destruct (decide (k0 ∈ d_seen st)) as [Hin|Hout]; simpl.
    + split; [tauto|]. intros [H|[->|H]]; auto.
    + rewrite elem_of_union, elem_of_singleton. tauto.
Qed.

(** *** Counting entities by key *)

Lemma count_key_app (k : string) (xs ys : list FroniusTemplateSensor) :
  count_key k (xs ++ ys) = count_key k xs + count_key k ys.
Proof. unfold count_key. now rewrite filter_app, length_app. Qed.

Lemma count_key_init_notin (k : string) (ks : list string) :
  k ∉ ks -> count_key k (map FroniusTemplateSensor_init ks) = 0.
Proof.
  unfold count_key. induction ks as [|k0 ks IH]; intros Hk; [reflexivity|].
  simpl. rewrite not_elem_of_cons in Hk. destruct Hk as [Hne Hk].
  rewrite filter_cons_False by (simpl; congruence). now apply IH.
Qed.

Lemma count_key_init_in (k : string) (ks : list string) :
  NoDup ks -> k ∈ ks -> count_key k (map FroniusTemplateSensor_init ks) = 1.
Proof.
  induction ks as [|k0 ks IH]; intros Hnd Hk; [inversion Hk|].
  apply NoDup_cons in Hnd as [Hk0 Hnd].
  change (map FroniusTemplateSensor_init (k0 :: ks))
    with ([FroniusTemplateSensor_init k0] ++ map FroniusTemplateSensor_init ks).
  rewrite count_key_app.
  apply elem_of_cons in Hk as [->|Hk].
  - rewrite (count_key_init_notin _ _ Hk0). unfold count_key.
    now rewrite filter_cons_True.
  - rewrite (IH Hnd Hk). unfold count_key.
    rewrite filter_cons_False; [reflexivity|].
    simpl. intros ->. contradiction.
Qed.

Lemma count_key_notin (k : string) (ents : list FroniusTemplateSensor) :
  k ∉ map _key ents -> count_key k ents = 0.
Proof.
  unfold count_key. induction ents as [|s ents IH]; intros Hk; [reflexivity|].
  simpl in Hk. rewrite not_elem_of_cons in Hk. destruct Hk as [Hne Hk].
  rewrite filter_cons_False by congruence. now apply IH.
Qed.

Lemma count_key_in (k : string) (ents : list FroniusTemplateSensor) :
  NoDup (map _key ents) -> k ∈ map _key ents -> count_key k ents = 1.
Proof.
  induction ents as [|s ents IH]; intros Hnd Hk; [inversion Hk|].
  simpl in Hnd, Hk. apply NoDup_cons in Hnd as [Hs Hnd].
  change (s :: ents) with ([s] ++ ents). rewrite count_key_app.
  apply elem_of_cons in Hk as [->|Hk].
  - rewrite (count_key_notin _ _ Hs). unfold count_key.
    now rewrite filter_cons_True.
  - rewrite (IH Hnd Hk). unfold count_key.
    rewrite filter_cons_False; [reflexivity|].
    intros <-. contradiction.
Qed.

(** *** One poll *)

Lemma map_key_init (ks : list string) :
  map _key (map FroniusTemplateSensor_init ks) = ks.
Proof. induction ks as [|k ks IH]; simpl; [reflexivity | now rewrite IH]. Qed.

Lemma poll_fetched_entities (w : world) (values : PyDict.t entry) :
  entities (FroniusAdapter_async_update w (Fetched values)) =
  entities w ++
    map FroniusTemplateSensor_init
      (fresh_keys (PyDict.keys (copy_values values (_fetched (adapter w))))
                  (sensors (adapter w))).
Proof. simpl. now rewrite discover_entities. Qed.

Lemma poll_fetched_new_entities (w : world) (values : PyDict.t entry) :
  new_entities w (FroniusAdapter_async_update w (Fetched values)) =
  map FroniusTemplateSensor_init
    (fresh_keys (PyDict.keys (copy_values values (_fetched (adapter w))))
                (sensors (adapter w))).
Proof.
  unfold new_entities. rewrite poll_fetched_entities.
  now rewrite drop_app_length.
Qed.

Lemma poll_fetched_seen (w : world) (values : PyDict.t entry) (k : string) :
  k ∈ sensors (adapter (FroniusAdapter_async_update w (Fetched values))) <->
  k ∈ sensors (adapter w) \/
  k ∈ PyDict.keys (copy_values values (_fetched (adapter w))).
Proof. simpl. now rewrite discover_seen. Qed.

Lemma poll_error_unavailable (w : world) (err : string) :
  _available (adapter (FroniusAdapter_async_update w (FroniusError err))) = false.
Proof.
  simpl. destruct (_available (adapter w)) eqn:E; [reflexivity | exact E].
Qed.

Lemma world_inv_init (name : string) (device : Z) :
  world_inv (world_init name device).
Proof.
  split; simpl.
  - intros k. split; intros H; [|inversion H].
    now apply not_elem_of_empty in H.
  - constructor.
  - intros k. split; intros H; [|inversion H].
    now apply not_elem_of_empty in H.
  - intros l H. now apply not_elem_of_empty in H.
Qed.

Lemma world_inv_poll (w : world) (r : fetch_result) :
  world_inv w -> world_inv (FroniusAdapter_async_update w r).
Proof.
  intros [I1 I2 I3 I4]. destruct r as [values|err].
  - assert (map _key (entities (FroniusAdapter_async_update w (Fetched values)))
            = map _key (entities w) ++
              fresh_keys (PyDict.keys (copy_values values (_fetched (adapter w))))
                         (sensors (adapter w))) as Hkeys.
    { now rewrite poll_fetched_entities, map_app, map_key_init. }
    split.
    + intros k. rewrite Hkeys, poll_fetched_seen, elem_of_app, fresh_keys_elem.
      rewrite <- I1.
      destruct (decide (k ∈ sensors (adapter w))); tauto.
    + rewrite Hkeys. apply NoDup_app. split; [assumption|].
      split; [|apply fresh_keys_NoDup].
      intros k Hk. rewrite fresh_keys_elem. rewrite <- I1 in Hk. tauto.
    + intros k. rewrite poll_fetched_seen. simpl. split; [|auto].
      intros [H|H]; [|assumption].
      apply copy_values_keys_mono. now apply I3.
    + intros l Hl. rewrite poll_fetched_entities, length_app.
      simpl in Hl. apply I4 in Hl. lia.
  - simpl. destruct (_available (adapter w)); split; assumption.
Qed.

Section HostFacts.

Variable round2 : float -> float.

Lemma sensor_update_key (parent : FroniusAdapter) (s s' : FroniusTemplateSensor) :
  FroniusTemplateSensor_async_update round2 parent s = Some s' ->
  _key s' = _key s.
Proof.
  unfold FroniusTemplateSensor_async_update.
  destruct (PyDict.get (_key s) (data parent)); [|discriminate].
  simpl. now intros [= <-].
Qed.

Lemma world_inv_exec (w w' : world) (ev : event) :
  world_inv w -> exec round2 w ev = Some w' -> world_inv w'.
Proof.
  intros Hinv. destruct ev as [r|l|l|l]; simpl.
  - intros [= <-]. now apply world_inv_poll.
  - destruct (entities w !! l) as [s|] eqn:Hs; [|discriminate]. simpl.
    intros [= <-]. destruct Hinv as [I1 I2 I3 I4]. split; simpl; auto.
    intros l' Hl'. apply elem_of_union in Hl' as [Hl'|Hl']; [|auto].
    apply elem_of_singleton in Hl'. subst l'.
    eapply lookup_lt_Some; eauto.
  - unfold unregister.
    destruct (decide (l ∈ _registered_sensors (adapter w))); [|discriminate].
    intros [= <-]. destruct Hinv as [I1 I2 I3 I4]. split; simpl; auto.
    intros l' Hl'. apply I4. now apply elem_of_difference in Hl' as [Hl' _].
  - destruct (entities w !! l) as [s|] eqn:Hs; [|discriminate]. simpl.
    destruct (FroniusTemplateSensor_async_update round2 (adapter w) s)
      as [s'|] eqn:Hs'; [|discriminate].
    simpl. intros [= <-]. destruct Hinv as [I1 I2 I3 I4].
    assert (map _key (<[l:=s']> (entities w)) = map _key (entities w)) as Hk.
    { rewrite list_fmap_insert.
      apply list_insert_id. rewrite list_lookup_fmap, Hs. simpl.
      f_equal. symmetry. eapply sensor_update_key; eauto. }
    split; simpl; try rewrite Hk; auto.
    intros l' Hl'. rewrite length_insert. auto.
Qed.

Lemma world_inv_run (evs : list event) :
  forall w w', world_inv w -> run round2 w evs = Some w' -> world_inv w'.
Proof.
  induction evs as [|ev evs IH]; intros w w' Hinv; simpl.
  - now intros [= <-].
  - destruct (exec round2 w ev) as [w1|] eqn:He; [|discriminate]. simpl.
    apply IH. eapply world_inv_exec; eauto.
Qed.

End HostFacts.

(** *** Properties of the adapter *)

Section AdapterProperties.

Variable round2 : float -> float.

Lemma exec_fetched_keys_mono (w w' : world) (ev : event) (k : string) :
  exec round2 w ev = Some w' ->
  k ∈ PyDict.keys (_fetched (adapter w)) ->
  k ∈ PyDict.keys (_fetched (adapter w')).
Proof.
  destruct ev as [[values|err]|l|l|l]; simpl.
  - intros [= <-]. simpl. apply copy_values_keys_mono.
  - intros [= <-]. now destruct (_available (adapter w)).
  - destruct (entities w !! l); [|discriminate]. simpl. now intros [= <-].
  - unfold unregister.
    destruct (decide (l ∈ _registered_sensors (adapter w))); [|discriminate].
    now intros [= <-].
  - destruct (entities w !! l) as [s|]; [|discriminate]. simpl.
    destruct (FroniusTemplateSensor_async_update round2 (adapter w) s);
      [|discriminate].
    simpl. now intros [= <-].
Qed.

Lemma exec_seen_mono (w w' : world) (ev : event) (k : string) :
  exec round2 w ev = Some w' ->
  k ∈ sensors (adapter w) -> k ∈ sensors (adapter w').
Proof.
  destruct ev as [[values|err]|l|l|l]; simpl.
  - intros [= <-] Hk. apply poll_fetched_seen. auto.
  - intros [= <-]. now destruct (_available (adapter w)).
  - destruct (entities w !! l); [|discriminate]. simpl. now intros [= <-].
  - unfold unregister.
    destruct (decide (l ∈ _registered_sensors (adapter w))); [|discriminate].
    now intros [= <-].
  - destruct (entities w !! l) as [s|]; [|discriminate]. simpl.
    destruct (FroniusTemplateSensor_async_update round2 (adapter w) s);
      [|discriminate].
    simpl. now intros [= <-].
Qed.

Lemma run_seen_mono (evs : list event) (k : string) :
  forall w w', run round2 w evs = Some w' ->
    k ∈ sensors (adapter w) -> k ∈ sensors (adapter w').
Proof.
  induction evs as [|ev evs IH]; intros w w'; simpl.
  - now intros [= <-].
  - destruct (exec round2 w ev) as [w1|] eqn:He; [|discriminate]. simpl.
    intros Hr Hk. apply (IH w1 w' Hr). eapply exec_seen_mono; eauto.
Qed.

Lemma exec_stays_unavailable (w w' : world) (ev : event) :
  (forall values, ev <> Poll (Fetched values)) ->
  exec round2 w ev = Some w' ->
  _available (adapter w) = false -> _available (adapter w') = false.
Proof.
  intros Hev. destruct ev as [[values|err]|l|l|l]; simpl.
  - now destruct (Hev values).
  - intros [= <-] Hw. now rewrite Hw.
  - destruct (entities w !! l); [|discriminate]. simpl. now intros [= <-].
  - unfold unregister.
    destruct (decide (l ∈ _registered_sensors (adapter w))); [|discriminate].
    now intros [= <-].
  - destruct (entities w !! l) as [s|]; [|discriminate]. simpl.
    destruct (FroniusTemplateSensor_async_update round2 (adapter w) s);
      [|discriminate].
    simpl. now intros [= <-].
Qed.

Lemma run_stays_unavailable (evs : list event) :
  forall w w', no_fetch evs -> run round2 w evs = Some w' ->
    _available (adapter w) = false -> _available (adapter w') = false.
Proof.
  induction evs as [|ev evs IH]; intros w w' Hnf; simpl.
  - now intros [= <-].
  - destruct (exec round2 w ev) as [w1|] eqn:He; [|discriminate]. simpl.
    intros Hr Hw. apply (IH w1 w'); [|assumption|].
    + intros values Hin. apply (Hnf values). now right.
    + eapply exec_stays_unavailable; eauto.
      intros values ->. apply (Hnf values). now left.
Qed.

Lemma count_key_seen (w : world) (k : string) :
  world_inv w ->
  count_key k (entities w) = if decide (k ∈ sensors (adapter w)) then 1 else 0.
Proof.
  intros [I1 I2 _ _]. destruct (decide (k ∈ sensors (adapter w))) as [H|H].
  - apply count_key_in; [assumption|]. now apply I1.
  - apply count_key_notin. now rewrite <- I1.
Qed.

(** C1: in every state an adapter can reach, each field name it has seen
    has exactly one entity and no other name has any; a poll whose
    response carries a field name not seen before creates exactly one
    entity for it and adds the name to the seen-field set; a name already
    seen gets no further entity, in that poll or in any later one; what a
    poll hands to [add_entities] is the list of the entities it created. *)
Theorem field_materialized_once (name : string) (device : Z)
  (evs : list event) (w : world) :
  run round2 (world_init name device) evs = Some w ->
  (forall k, count_key k (entities w) =
             if decide (k ∈ sensors (adapter w)) then 1 else 0) /\
  (forall values k,
     let w' := FroniusAdapter_async_update w (Fetched values) in
     (is_field values k -> k ∉ sensors (adapter w) ->
        count_key k (new_entities w w') = 1 /\ k ∈ sensors (adapter w')) /\
     (k ∈ sensors (adapter w) -> count_key k (new_entities w w') = 0) /\
     (~ is_field values k -> count_key k (new_entities w w') = 0)) /\
  (forall k evs' w'',
     k ∈ sensors (adapter w) -> run round2 w evs' = Some w'' ->
     count_key k (entities w'') = 1) /\
  (forall values,
     let w' := FroniusAdapter_async_update w (Fetched values) in
     added w' =
     added w ++ [seq (length (entities w)) (length (new_entities w w'))]).
Proof.
  intros Hrun.
  assert (world_inv w) as Hinv.
  { eapply world_inv_run; [apply world_inv_init | exact Hrun]. }
  split; [intros k; now apply count_key_seen|]. split; [|split].
  - intros values k w'. unfold w'. rewrite poll_fetched_new_entities.
    split; [|split].
    + intros Hf Hk. split.
      * apply count_key_init_in; [apply fresh_keys_NoDup|].
        apply fresh_keys_elem. split; [|assumption].
        apply copy_values_keys. auto.
      * apply poll_fetched_seen. right. apply copy_values_keys. auto.
    + intros Hk. apply count_key_init_notin. rewrite fresh_keys_elem. tauto.
    + intros Hf. apply count_key_init_notin. rewrite fresh_keys_elem.
      intros [Hk Hs]. apply copy_values_keys in Hk as [Hk|Hk]; [|auto].
      apply Hs. now apply (inv_seen_fetched w Hinv).
  - intros k evs' w'' Hk Hrun'.
    assert (world_inv w'') as Hinv'' by (eapply world_inv_run; eauto).
    rewrite (count_key_seen w'' k Hinv'').
    rewrite decide_True; [reflexivity|]. eapply run_seen_mono; eauto.
  - intros values w'. unfold w'. rewrite poll_fetched_new_entities.
    simpl. now rewrite discover_new, length_map.
Qed.

(** C2: an adapter that is available and fails twice in a row logs one
    error record, on the first failure, and none on the second; whatever
    happens afterwards, a successful poll makes it available again. *)
Theorem failure_streak_logs_once (w : world) (e1 e2 : string) :
  _available (adapter w) = true ->
  let w1 := FroniusAdapter_async_update w (FroniusError e1) in
  let w2 := FroniusAdapter_async_update w1 (FroniusError e2) in
  log w1 = log w ++ [LogError e1] /\
  log w2 = log w1 /\
  errors (log w2) = errors (log w) ++ [e1] /\
  forall evs w3 values,
    run round2 w2 evs = Some w3 ->
    _available (adapter (FroniusAdapter_async_update w3 (Fetched values))) = true.
Proof.
  intros Hav. simpl. rewrite Hav. simpl.
  split; [reflexivity|]. split; [reflexivity|]. split; [|reflexivity].
  unfold errors. now rewrite omap_app.
Qed.

(** C5 (as the code has it): a successful poll with response [values]
    writes into the stored field map every key of [values] whose entry has
    a ["value"], mapped to that entry, and leaves every other key of the
    stored map as it was; keys of earlier fetches stay. *)
Theorem fetched_map_accumulates (w : world) (values : PyDict.t entry) :
  NoDup (PyDict.keys values) ->
  let w' := FroniusAdapter_async_update w (Fetched values) in
  (forall k e, PyDict.get k values = Some e -> PyDict.mem "value" e = true ->
     PyDict.get k (_fetched (adapter w')) = Some e) /\
  (forall k, ~ is_field values k ->
     PyDict.get k (_fetched (adapter w')) = PyDict.get k (_fetched (adapter w))) /\
  (forall k, k ∈ PyDict.keys (_fetched (adapter w')) <->
     k ∈ PyDict.keys (_fetched (adapter w)) \/ is_field values k).
Proof.
  intros Hnd. simpl. split; [|split].
  - intros k e Hk He. rewrite copy_values_get by assumption.
    now rewrite Hk, He.
  - intros k Hf. rewrite copy_values_get by assumption.
    destruct (PyDict.get k values) as [e|] eqn:Hk; [|reflexivity].
    destruct (PyDict.mem "value" e) eqn:He; [|reflexivity].
    exfalso. apply Hf. exists e. split; [|assumption].
    clear -Hk. induction values as [|[k0 e0] rest IH]; [discriminate|].
    simpl in Hk. destruct (String.eqb k k0) eqn:E.
    + apply String.eqb_eq in E. injection Hk as ->. subst. constructor.
    + right. now apply IH.
  - intros k. apply copy_values_keys.
Qed.

(** C6: a poll that fails changes neither the stored field map, nor the
    seen-field set, nor the registered sensors, creates no entity and
    calls nobody; the adapter is unavailable afterwards, and so is every
    one of its entities, until a poll fetches something. *)
Theorem failed_poll_is_skipped (w : world) (err : string) :
  let w' := FroniusAdapter_async_update w (FroniusError err) in
  _fetched (adapter w') = _fetched (adapter w) /\
  sensors (adapter w') = sensors (adapter w) /\
  _registered_sensors (adapter w') = _registered_sensors (adapter w) /\
  entities w' = entities w /\
  added w' = added w /\
  scheduled w' = scheduled w /\
  forall evs w'',
    no_fetch evs -> run round2 w' evs = Some w'' ->
    available (adapter w'') = false /\
    forall l s, entities w'' !! l = Some s ->
      sensor_available (adapter w'') s = false.
Proof.
  intros w'.
  assert (_available (adapter w') = false) as Hw'
    by apply poll_error_unavailable.
  repeat split; try (unfold w'; simpl; now destruct (_available (adapter w))).
  - eapply run_stays_unavailable; eauto.
  - intros l s _. unfold sensor_available, available.
    eapply run_stays_unavailable; eauto.
Qed.

(** C7: along any sequence of polls the flag goes from true to false only
    in a poll that fails; a poll that fetches leaves it true, and a poll
    that fails while it is false leaves it false and logs nothing. *)
Theorem availability_flips_on_first_failure (w : world)
  (rs : list fetch_result) (r : fetch_result) :
  let before := polls w rs in
  let after := FroniusAdapter_async_update before r in
  (_available (adapter before) = true -> _available (adapter after) = false ->
     exists err, r = FroniusError err) /\
  (forall values, r = Fetched values -> _available (adapter after) = true) /\
  (forall err, r = FroniusError err ->
     _available (adapter after) = false /\
     (_available (adapter before) = false -> after = before)).
Proof.
  intros before after. unfold after. split; [|split].
  - destruct r as [values|err]; simpl; [congruence | eauto].
  - now intros values ->.
  - intros err ->. split; [apply poll_error_unavailable|].
    simpl. now intros ->.
Qed.

(** C10: in every state an adapter can reach, no event removes a key from
    the stored field map, every entity's key is a key of that map, and
    for every entity, in particular for every registered sensor, the
    parent's data has an entry under the entity's key, so that the
    entity's update does not fail on a missing entry. *)
Theorem registered_sensor_key_present (name : string) (device : Z)
  (evs : list event) (w : world) :
  run round2 (world_init name device) evs = Some w ->
  (forall ev w' k,
     exec round2 w ev = Some w' ->
     k ∈ PyDict.keys (_fetched (adapter w)) ->
     k ∈ PyDict.keys (_fetched (adapter w'))) /\
  (forall l s, entities w !! l = Some s ->
     _key s ∈ PyDict.keys (_fetched (adapter w))) /\
  (forall l s, entities w !! l = Some s ->
     is_Some (PyDict.get (_key s) (data (adapter w))) /\
     is_Some (FroniusTemplateSensor_async_update round2 (adapter w) s)) /\
  (forall l, l ∈ _registered_sensors (adapter w) ->
     exists s, entities w !! l = Some s /\
       is_Some (PyDict.get (_key s) (data (adapter w))) /\
       is_Some (FroniusTemplateSensor_async_update round2 (adapter w) s)).
Proof.
  intros Hrun.
  assert (world_inv w) as Hinv.
  { eapply world_inv_run; [apply world_inv_init | exact Hrun]. }
  assert (forall l s, entities w !! l = Some s ->
            _key s ∈ PyDict.keys (_fetched (adapter w))) as Hkeys.
  { intros l s Hs. apply (inv_seen_fetched w Hinv).
    apply (inv_seen_entities w Hinv).
    apply list_elem_of_lookup. exists l.
    now rewrite list_lookup_fmap, Hs. }
  assert (forall l s, entities w !! l = Some s ->
            is_Some (PyDict.get (_key s) (data (adapter w))) /\
            is_Some (FroniusTemplateSensor_async_update round2 (adapter w) s))
    as Hupd.
  { intros l s Hs. pose proof (Hkeys l s Hs) as Hk.
    apply PyDictFacts.get_Some_keys in Hk. split; [exact Hk|].
    destruct Hk as [state Hstate].
    unfold FroniusTemplateSensor_async_update, data. rewrite Hstate.
    simpl. eauto. }
  split; [|split; [|split]].
  - intros ev w' k. apply exec_fetched_keys_mono.
  - exact Hkeys.
  - exact Hupd.
  - intros l Hl. apply (inv_registered w Hinv) in Hl.
    destruct (lookup_lt_is_Some_2 _ _ Hl) as [s Hs]. exists s.
    split; [assumption|]. now apply (Hupd l).
Qed.

End AdapterProperties.

(** ** The properties at sample inputs *)

Lemma field_materialized_once_sample :
  run (fun f => f) (world_init "Fronius Inverter 1" 1)
      [Poll (Fetched sample_response_1)] = Some sample_world /\
  count_key "power_ac" (entities sample_world) = 1 /\
  count_key "status" (entities sample_world) = 0.
Proof.
  split; [reflexivity|].
  pose proof (field_materialized_once (fun f => f) "Fronius Inverter 1" 1
                [Poll (Fetched sample_response_1)] sample_world eq_refl)
    as [Hcount _].
  split; rewrite Hcount; vm_compute; reflexivity.
Defined.

Lemma failure_streak_logs_once_sample :
  _available (adapter sample_world) = true /\
  errors (log (polls sample_world
                 [FroniusError "timeout"; FroniusError "timeout"])) =
  ["timeout"].
Proof.
  split; [reflexivity|].
  exact (proj1 (proj2 (proj2
           (failure_streak_logs_once (fun f => f) sample_world
              "timeout" "timeout" eq_refl)))).
Defined.

Lemma sample_heap_has_sensor_types : has_sensor_types sample_heap sample_config.
Proof.
  repeat constructor; eexists; (split; [reflexivity | eexists; reflexivity]).
Defined.

Lemma device_id_default_sample :
  has_sensor_types sample_heap sample_config /\
  exists h' c',
    _device_id_validator sample_heap sample_config = Some (h', c') /\
    (exists l' d', monitored_conditions c' !! 0 = Some l' /\
       h' !! l' = Some d' /\ PyDict.get CONF_DEVICE d' = Some (AInt 1)) /\
    (exists l' d', monitored_conditions c' !! 2 = Some l' /\
       h' !! l' = Some d' /\ PyDict.get CONF_DEVICE d' = Some (AInt 0)).
Proof.
  split; [exact sample_heap_has_sensor_types|].
  destruct (device_id_default sample_heap sample_config
              sample_heap_has_sensor_types) as (h' & c' & Hv & Hd).
  exists h', c'. split; [exact Hv|]. split.
  - eapply (Hd 0 0 _ (AStr "inverter")); reflexivity.
  - eapply (Hd 2 2 _ (AStr "storage")); reflexivity.
Defined.

Lemma device_id_validator_frame_sample :
  has_sensor_types sample_heap sample_config /\
  exists h' c',
    _device_id_validator sample_heap sample_config = Some (h', c') /\
    h' !! 0 = Some [(CONF_SENSOR_TYPE, AStr "inverter");
                    (CONF_SCOPE, AStr "device")] /\
    exists l' d', monitored_conditions c' !! 1 = Some l' /\
                  h' !! l' = Some d' /\ PyDict.get CONF_DEVICE d' = Some (AInt 5).
Proof.
  split; [exact sample_heap_has_sensor_types|].
  destruct (device_id_validator_frame sample_heap sample_config
              sample_heap_has_sensor_types)
    as (h' & c' & Hv & Hfr & _ & _ & _ & Hc).
  exists h', c'. split; [exact Hv|]. split.
  - rewrite (Hfr 0); [reflexivity | simpl; lia].
  - destruct (Hc 1 1 _ eq_refl eq_refl) as (l' & d' & Hl' & Hd' & Hsame & _).
    exists l', d'. split; [exact Hl'|]. split; [exact Hd'|].
    rewrite (Hsame eq_refl). reflexivity.
Defined.

Lemma sample_response_1_keys : NoDup (PyDict.keys sample_response_1).
Proof.
  apply NoDup_cons. split; [|apply NoDup_singleton].
  rewrite list_elem_of_singleton. discriminate.
Defined.

Lemma fetched_map_accumulates_sample :
  NoDup (PyDict.keys sample_response_1) /\
  PyDict.get "power_ac" (_fetched (adapter sample_world)) =
  Some [("value", PInt 1200); ("unit", PStr "W")].
Proof.
  split; [exact sample_response_1_keys|].
  apply (proj1 (fetched_map_accumulates (world_init "Fronius Inverter 1" 1)
                  sample_response_1 sample_response_1_keys)
           "power_ac"); reflexivity.
Defined.

(** The stored field map after a second fetch still has the key of the
    first one, which the second response lacks: the map is not the most
    recent response alone. *)
Lemma fetched_map_keeps_earlier_key :
  ~ (forall k,
       k ∈ PyDict.keys
             (_fetched (adapter (FroniusAdapter_async_update sample_world
                                   (Fetched sample_response_2)))) <->
       is_field sample_response_2 k).
Proof.
  intros H. destruct (H "power_ac") as [Hin _].
  destruct Hin as (e & He & _).
  - vm_compute. constructor.
  - apply list_elem_of_singleton in He. discriminate.
Qed.

Lemma registered_sensor_key_present_sample :
  run (fun f => f) (world_init "Fronius Inverter 1" 1)
      [Poll (Fetched sample_response_1); SensorAdded 0]
    = Some sample_world_registered /\
  exists s, entities sample_world_registered !! 0 = Some s /\
    is_Some (PyDict.get (_key s) (data (adapter sample_world_registered))) /\
    is_Some (FroniusTemplateSensor_async_update (fun f => f)
               (adapter sample_world_registered) s).
Proof.
  split; [reflexivity|].
  apply (proj2 (proj2 (proj2
           (registered_sensor_key_present (fun f => f) "Fronius Inverter 1" 1
              [Poll (Fetched sample_response_1); SensorAdded 0]
              sample_world_registered eq_refl))) 0).
  apply elem_of_union_l, elem_of_singleton. reflexivity.
Defined.

(** * Further properties of the code *)

(** ** The prefix tables *)

(** X1: the two prefix tables list the same prefixes in the same order, so
    a sensor has a device class exactly when it has a state class, and its
    state class is [total_increasing] exactly when its device class is
    [energy]. *)
Theorem sensor_classes_agree (key : string) :
  let s := FroniusTemplateSensor_init key in
  (is_Some (_attr_device_class s) <-> is_Some (_attr_state_class s)) /\
  (_attr_state_class s = Some STATE_CLASS_TOTAL_INCREASING <->
   _attr_device_class s = Some DEVICE_CLASS_ENERGY).
Proof.
  cbv zeta. unfold FroniusTemplateSensor_init.
  cbn [_attr_device_class _attr_state_class].
  unfold PREFIX_DEVICE_CLASS_MAPPING, PREFIX_STATE_CLASS_MAPPING.
  cbn [class_of_prefix].
  repeat match goal with
         | |- context [startswith key ?p] => destruct (startswith key p)
         end;
    (split; split; intros H; try discriminate H; eauto;
     destruct H as [? H]; discriminate H).
Qed.

(** X2: no row of the prefix tables is shadowed by an earlier one: a field
    named exactly like a row's prefix gets that row's class. *)
Theorem prefix_rows_reachable :
  (forall pre cls, (pre, cls) ∈ PREFIX_DEVICE_CLASS_MAPPING ->
     class_of_prefix PREFIX_DEVICE_CLASS_MAPPING pre = Some cls) /\
  (forall pre cls, (pre, cls) ∈ PREFIX_STATE_CLASS_MAPPING ->
     class_of_prefix PREFIX_STATE_CLASS_MAPPING pre = Some cls).
Proof.
  split; intros pre cls Hin;
    unfold PREFIX_DEVICE_CLASS_MAPPING, PREFIX_STATE_CLASS_MAPPING in Hin;
    repeat (apply elem_of_cons in Hin as [[= -> ->]|Hin]; [reflexivity|]);
    inversion Hin.
Qed.

(** ** Registering sensors *)

Lemma set_registered_same (w : world) :
  set_registered w (_registered_sensors (adapter w)) = w.
Proof. destruct w as [[? ? ? ? ? ?] ? ? ? ?]. reflexivity. Qed.

Lemma set_registered_twice (w : world) (r r' : gset loc) :
  set_registered (set_registered w r) r' = set_registered w r'.
Proof. reflexivity. Qed.

(** X15: registering a sensor twice is the same as once; the callable
    [register] returns undoes the registration of a sensor that was not
    registered before; and it works once: called again it fails with
    [KeyError], as it does for a sensor that was never registered. *)
Theorem register_unregister (w : world) (l : loc) :
  register (register w l) l = register w l /\
  (l ∉ _registered_sensors (adapter w) ->
     unregister (register w l) l = Some w) /\
  (forall w', unregister w l = Some w' -> unregister w' l = None) /\
  (l ∉ _registered_sensors (adapter w) -> unregister w l = None).
Proof.
  split; [|split; [|split]].
  - unfold register. rewrite set_registered_twice. simpl. f_equal.
    apply set_eq. intros x. rewrite !elem_of_union. tauto.
  - intros Hl. unfold unregister, register. simpl.
    rewrite decide_True by (apply elem_of_union_l, elem_of_singleton; reflexivity).
    rewrite set_registered_twice. f_equal.
    transitivity (set_registered w (_registered_sensors (adapter w)));
      [|apply set_registered_same].
    f_equal. apply set_eq. intros x.
    rewrite elem_of_difference, elem_of_union, elem_of_singleton.
    split; [tauto|]. intros Hx. split; [tauto|]. intros ->. contradiction.
  - intros w'. unfold unregister.
    destruct (decide (l ∈ _registered_sensors (adapter w))); [|discriminate].
    intros [= <-]. simpl. rewrite decide_False; [reflexivity|].
    rewrite elem_of_difference, elem_of_singleton. tauto.
  - intros Hl. unfold unregister. now rewrite decide_False.
Qed.

(** ** Polls and the log *)

Lemma errors_info (ks : list string) : errors (map LogInfo ks) = [].
Proof. induction ks as [|k ks IH]; [reflexivity | exact IH]. Qed.

Lemma discovered_info (ks : list string) : discovered (map LogInfo ks) = ks.
Proof.
  induction ks as [|k ks IH]; [reflexivity|].
  change (discovered (map LogInfo (k :: ks)))
    with (k :: discovered (map LogInfo ks)).
  now rewrite IH.
Qed.

Lemma poll_errors (w : world) (r : fetch_result) :
  errors (log (FroniusAdapter_async_update w r)) =
  errors (log w) ++
  match r with
  | FroniusError err => if _available (adapter w) then [err] else []
  | Fetched _ => []
  end.
Proof.
  destruct r as [values|err]; simpl.
  - rewrite discover_log. simpl. unfold errors at 1.
    rewrite omap_app. fold (errors (log w)).
    fold (errors (map LogInfo
      (fresh_keys (PyDict.keys (copy_values values (_fetched (adapter w))))
                  (sensors (adapter w))))).
    now rewrite errors_info.
  - destruct (_available (adapter w)); simpl.
    + unfold errors. now rewrite omap_app.
    + now rewrite app_nil_r.
Qed.

Lemma poll_available (w : world) (r : fetch_result) :
  _available (adapter (FroniusAdapter_async_update w r)) =
  match r with Fetched _ => true | FroniusError _ => false end.
Proof.
  destruct r as [values|err]; [reflexivity|apply poll_error_unavailable].
Qed.

(** X10: over any sequence of polls the adapter logs one error record per
    failure streak: as many as there are failed polls that found the
    adapter available. *)
Theorem one_error_per_failure_streak (w : world) (rs : list fetch_result) :
  length (errors (log (polls w rs))) =
  length (errors (log w)) + failure_streaks (_available (adapter w)) rs.
Proof.
  unfold polls. revert w. induction rs as [|r rs IH]; intros w; simpl.
  - lia.
  - rewrite IH, poll_errors, poll_available, length_app.
    destruct r as [values|err]; simpl; [lia|].
    destruct (_available (adapter w)); simpl; lia.
Qed.

(** ** The stored field map over time *)

Lemma copy_values_get_absent (values attributes : PyDict.t entry) (k : string) :
  ~ is_field values k ->
  PyDict.get k (copy_values values attributes) = PyDict.get k attributes.
Proof.
  revert attributes. induction values as [|[key e] rest IH]; intros attrs Hf.
  - reflexivity.
  - simpl. rewrite IH.
    + destruct (PyDict.mem "value" e) eqn:He; [|reflexivity].
      apply PyDictFacts.get_set_ne. intros ->. apply Hf.
      exists e. split; [constructor | assumption].
    + intros (e' & Hin & He'). apply Hf. exists e'.
      split; [now constructor | assumption].
Qed.

(** X14: an entry of the stored field map stays as it is through every
    poll whose response does not carry that field, failed polls included:
    a field the device stops sending keeps its last fetched entry. *)
Theorem absent_field_keeps_entry (w : world) (rs : list fetch_result)
  (k : string) (e : entry) :
  PyDict.get k (_fetched (adapter w)) = Some e ->
  (forall values, Fetched values ∈ rs -> ~ is_field values k) ->
  PyDict.get k (_fetched (adapter (polls w rs))) = Some e.
Proof.
  unfold polls. revert w. induction rs as [|r rs IH]; intros w Hk Hrs.
  - exact Hk.
  - simpl. apply IH.
    + destruct r as [values|err]; simpl.
      * rewrite copy_values_get_absent; [exact Hk|].
        apply Hrs. constructor.
      * now destruct (_available (adapter w)).
    + intros values Hin. apply Hrs. now constructor.
Qed.

Lemma copy_values_have_value (values attributes : PyDict.t entry) :
  (forall k e, PyDict.get k attributes = Some e ->
     PyDict.mem "value" e = true) ->
  forall k e, PyDict.get k (copy_values values attributes) = Some e ->
    PyDict.mem "value" e = true.
Proof.
  revert attributes. induction values as [|[key e0] rest IH]; intros attrs Ha.
  - exact Ha.
  - simpl. apply IH. destruct (PyDict.mem "value" e0) eqn:He0; [|exact Ha].
    intros k e. rewrite PyDictFacts.get_set.
    destruct (String.eqb k key); [|apply Ha]. now intros [= <-].
Qed.

Section EntityProperties.

Variable round2 : float -> float.

Lemma exec_entries_have_value (w w' : world) (ev : event) :
  exec round2 w ev = Some w' ->
  (forall k e, PyDict.get k (_fetched (adapter w)) = Some e ->
     PyDict.mem "value" e = true) ->
  forall k e, PyDict.get k (_fetched (adapter w')) = Some e ->
    PyDict.mem "value" e = true.
Proof.
  destruct ev as [[values|err]|l|l|l]; simpl.
  - intros [= <-]. simpl. apply copy_values_have_value.
  - intros [= <-]. now destruct (_available (adapter w)).
  - destruct (entities w !! l); [|discriminate]. simpl. now intros [= <-].
  - unfold unregister.
    destruct (decide (l ∈ _registered_sensors (adapter w))); [|discriminate].
    now intros [= <-].
  - destruct (entities w !! l) as [s|]; [|discriminate]. simpl.
    destruct (FroniusTemplateSensor_async_update round2 (adapter w) s);
      [|discriminate].
    simpl. now intros [= <-].
Qed.

Lemma run_entries_have_value (evs : list event) :
  forall w w', run round2 w evs = Some w' ->
    (forall k e, PyDict.get k (_fetched (adapter w)) = Some e ->
       PyDict.mem "value" e = true) ->
    forall k e, PyDict.get k (_fetched (adapter w')) = Some e ->
      PyDict.mem "value" e = true.
Proof.
  induction evs as [|ev evs IH]; intros w w'; simpl.
  - now intros [= <-].
  - destruct (exec round2 w ev) as [w1|] eqn:He; [|discriminate]. simpl.
    intros Hr Hw. apply (IH w1 w' Hr). eapply exec_entries_have_value; eauto.
Qed.

Lemma mem_get_value (e : entry) :
  PyDict.mem "value" e = true -> exists v, PyDict.get "value" e = Some v.
Proof.
  unfold PyDict.mem. destruct (PyDict.get "value" e); [eauto|discriminate].
Qed.

(** X16: in every state an adapter can reach, each entry of the stored
    field map has a ["value"], and updating any entity succeeds and makes
    it show that value of the entry under its key (rounded when it is a
    float): an entity never shows the [None] of a missing ["value"]. *)
Theorem entities_show_stored_values (name : string) (device : Z)
  (evs : list event) (w : world) :
  run round2 (world_init name device) evs = Some w ->
  (forall k e, PyDict.get k (_fetched (adapter w)) = Some e ->
     exists v, PyDict.get "value" e = Some v) /\
  (forall l s, entities w !! l = Some s ->
     exists e v s',
       PyDict.get (_key s) (data (adapter w)) = Some e /\
       PyDict.get "value" e = Some v /\
       FroniusTemplateSensor_async_update round2 (adapter w) s = Some s' /\
       _attr_native_value s' = shown round2 v).
Proof.
  intros Hrun.
  assert (forall k e, PyDict.get k (_fetched (adapter w)) = Some e ->
            PyDict.mem "value" e = true) as Hval.
  { eapply run_entries_have_value; [exact Hrun|]. intros k e. discriminate. }
  split.
  - intros k e Hk. apply mem_get_value. eauto.
  - intros l s Hs.
    assert (world_inv w) as Hinv.
    { eapply world_inv_run; [apply world_inv_init | exact Hrun]. }
    assert (_key s ∈ PyDict.keys (_fetched (adapter w))) as Hk.
    { apply (inv_seen_fetched w Hinv). apply (inv_seen_entities w Hinv).
      apply list_elem_of_lookup. exists l.
      now rewrite list_lookup_fmap, Hs. }
    apply PyDictFacts.get_Some_keys in Hk as [e He].
    destruct (mem_get_value e (Hval _ _ He)) as [v Hv].
    exists e, v. eexists. split; [exact He|]. split; [exact Hv|].
    unfold FroniusTemplateSensor_async_update, data. rewrite He. simpl.
    split; [reflexivity|]. simpl. now rewrite Hv.
Qed.

(** X13: right after a poll fetched a response in which the field [k] has
    the entry [e], updating an entity of key [k] gives it the value of [e]
    (rounded when it is a float) and the unit of [e], [None] when [e] has
    no unit; key and classes stay. *)
Theorem entity_shows_fetched_value (w : world) (values : PyDict.t entry)
  (k : string) (e : entry) (v : pyval) (s : FroniusTemplateSensor) :
  NoDup (PyDict.keys values) ->
  PyDict.get k values = Some e ->
  PyDict.get "value" e = Some v ->
  _key s = k ->
  FroniusTemplateSensor_async_update round2
    (adapter (FroniusAdapter_async_update w (Fetched values))) s =
  Some {| _key := k;
          _attr_device_class := _attr_device_class s;
          _attr_state_class := _attr_state_class s;
          _attr_native_value := shown round2 v;
          _attr_native_unit_of_measurement :=
            default PNone (PyDict.get "unit" e) |}.
Proof.
  intros Hnd Hk Hv <-.
  unfold FroniusTemplateSensor_async_update, data. simpl.
  rewrite copy_values_get by assumption. rewrite Hk.
  unfold PyDict.mem. rewrite Hv. simpl. now rewrite Hv.
Qed.

End EntityProperties.

(** ** Handing entities to the host *)

Lemma copy_values_keys_ext (values attributes : PyDict.t entry) :
  exists ext,
    PyDict.keys (copy_values values attributes) = PyDict.keys attributes ++ ext /\
    NoDup ext /\
    forall k, k ∈ ext -> k ∉ PyDict.keys attributes.
Proof.
  revert attributes. induction values as [|[key e] rest IH]; intros attrs.
  - exists []. simpl. rewrite app_nil_r. repeat split; [constructor|].
    intros k Hk. inversion Hk.
  - simpl. destruct (PyDict.mem "value" e); [|apply IH].
    destruct (IH (PyDict.set key e attrs)) as (ext & Hkeys & Hnd & Hdis).
    destruct (PyDict.mem key attrs) eqn:Hmem.
    + rewrite (PyDictFacts.keys_set_mem _ _ _ Hmem) in Hkeys, Hdis.
      exists ext. auto.
    + rewrite (PyDictFacts.keys_set_fresh _ _ _ Hmem) in Hkeys, Hdis.
      exists (key :: ext). rewrite Hkeys, <- app_assoc. simpl.
      split; [reflexivity|]. split.
      * constructor; [|assumption]. intros Hin. apply (Hdis key Hin).
        apply elem_of_app. right. constructor.
      * intros k Hk. apply elem_of_cons in Hk as [->|Hk].
        -- now apply PyDictFacts.mem_false_keys.
        -- intros Hin. apply (Hdis k Hk). apply elem_of_app. now left.
Qed.

Lemma fresh_keys_app_seen (l1 l2 : list string) (seen : gset string) :
  (forall k, k ∈ l1 -> k ∈ seen) ->
  fresh_keys (l1 ++ l2) seen = fresh_keys l2 seen.
Proof.
  induction l1 as [|k l1 IH]; intros Hseen; [reflexivity|].
  simpl. rewrite decide_True by (apply Hseen; constructor).
  apply IH. intros k' Hk'. apply Hseen. now constructor.
Qed.

Lemma fresh_keys_unseen (l : list string) :
  forall seen : gset string,
    NoDup l -> (forall k, k ∈ l -> k ∉ seen) -> fresh_keys l seen = l.
Proof.
  induction l as [|k l IH]; intros seen Hnd Hout; [reflexivity|].
  apply NoDup_cons in Hnd as [Hk Hnd]. simpl.
  rewrite decide_False by (apply Hout; constructor).
  f_equal. apply IH; [assumption|].
  intros k' Hk'. rewrite elem_of_union, elem_of_singleton.
  intros [->|Hs]; [contradiction|].
  apply (Hout k'); [now constructor | assumption].
Qed.

Lemma insert_same_key (ents : list FroniusTemplateSensor) (l : nat)
  (s s' : FroniusTemplateSensor) :
  ents !! l = Some s -> _key s' = _key s ->
  map _key (<[l:=s']> ents) = map _key ents.
Proof.
  intros Hs Hk. rewrite list_fmap_insert. apply list_insert_id.
  rewrite list_lookup_fmap, Hs. simpl. now rewrite Hk.
Qed.

Lemma discovered_app (l1 l2 : list log_record) :
  discovered (l1 ++ l2) = discovered l1 ++ discovered l2.
Proof. unfold discovered. apply omap_app. Qed.

Lemma delivery_inv_init (name : string) (device : Z) :
  delivery_inv (world_init name device).
Proof.
  split; simpl; try reflexivity. intros l Hl. inversion Hl.
Qed.

Lemma delivery_inv_poll (w : world) (r : fetch_result) :
  world_inv w -> delivery_inv w ->
  delivery_inv (FroniusAdapter_async_update w r).
Proof.
  intros [I1 I2 I3 I4] [J1 J2 J3 J4]. destruct r as [values|err].
  - destruct (copy_values_keys_ext values (_fetched (adapter w)))
      as (ext & Hkeys & Hnd & Hdis).
    assert (fresh_keys (PyDict.keys (copy_values values (_fetched (adapter w))))
                       (sensors (adapter w)) = ext) as Hfresh.
    { rewrite Hkeys, fresh_keys_app_seen.
      - apply fresh_keys_unseen; [assumption|].
        intros k Hk Hs. apply (Hdis k Hk). now apply I3.
      - intros k Hk. now apply I3. }
    split.
    + simpl. rewrite discover_new, discover_entities. simpl.
      rewrite Hfresh, concat_app, J1, length_app, length_map. simpl.
      now rewrite app_nil_r, seq_app.
    + simpl. rewrite discover_log, discover_entities. simpl.
      rewrite Hfresh, discovered_app, discovered_info, map_app, map_key_init.
      now rewrite J2.
    + simpl. rewrite discover_entities. simpl.
      now rewrite Hfresh, map_app, map_key_init, J3, Hkeys.
    + intros l Hl. rewrite poll_fetched_entities, length_app.
      simpl in Hl. apply elem_of_app in Hl as [Hl|Hl].
      * apply J4 in Hl. lia.
      * apply elem_of_elements, I4 in Hl. lia.
  - simpl. destruct (_available (adapter w)); split; simpl; auto.
    rewrite discovered_app. simpl. now rewrite app_nil_r.
Qed.

Section Delivery.

Variable round2 : float -> float.

Lemma delivery_inv_exec (w w' : world) (ev : event) :
  world_inv w -> delivery_inv w -> exec round2 w ev = Some w' ->
  delivery_inv w'.
Proof.
  intros Hinv Hd. destruct ev as [r|l|l|l]; simpl.
  - intros [= <-]. now apply delivery_inv_poll.
  - destruct (entities w !! l); [|discriminate]. simpl.
    intros [= <-]. destruct Hd. split; assumption.
  - unfold unregister.
    destruct (decide (l ∈ _registered_sensors (adapter w))); [|discriminate].
    intros [= <-]. destruct Hd. split; assumption.
  - destruct (entities w !! l) as [s|] eqn:Hs; [|discriminate]. simpl.
    destruct (FroniusTemplateSensor_async_update round2 (adapter w) s)
      as [s'|] eqn:Hs'; [|discriminate].
    simpl. intros [= <-]. destruct Hd as [J1 J2 J3 J4].
    pose proof (insert_same_key _ _ _ _ Hs (sensor_update_key _ _ _ _ Hs'))
      as Hk.
    split; simpl; rewrite ?Hk, ?length_insert; assumption.
Qed.

Lemma delivery_inv_run (evs : list event) :
  forall w w', world_inv w -> delivery_inv w ->
    run round2 w evs = Some w' -> delivery_inv w'.
Proof.
  induction evs as [|ev evs IH]; intros w w' Hinv Hd; simpl.
  - now intros [= <-].
  - destruct (exec round2 w ev) as [w1|] eqn:He; [|discriminate]. simpl.
    apply IH; [eapply world_inv_exec | eapply delivery_inv_exec]; eauto.
Qed.

Lemma entity_update_succeeds (w : world) (l : nat) (s : FroniusTemplateSensor) :
  world_inv w -> entities w !! l = Some s ->
  is_Some (FroniusTemplateSensor_async_update round2 (adapter w) s).
Proof.
  intros Hinv Hs.
  assert (_key s ∈ PyDict.keys (_fetched (adapter w))) as Hk.
  { apply (inv_seen_fetched w Hinv). apply (inv_seen_entities w Hinv).
    apply list_elem_of_lookup. exists l. now rewrite list_lookup_fmap, Hs. }
  apply PyDictFacts.get_Some_keys in Hk as [e He].
  unfold FroniusTemplateSensor_async_update, data. rewrite He. simpl. eauto.
Qed.

(** X11: in every state an adapter can reach, the calls of [add_entities]
    taken together list every entity of the store exactly once, in the
    order of creation, and the log has one discovery record per entity,
    with its key, in the same order. *)
Theorem entities_handed_over_once (name : string) (device : Z)
  (evs : list event) (w : world) :
  run round2 (world_init name device) evs = Some w ->
  concat (added w) = seq 0 (length (entities w)) /\
  discovered (log w) = map _key (entities w).
Proof.
  intros Hrun.
  destruct (delivery_inv_run evs _ w (world_inv_init name device)
              (delivery_inv_init name device) Hrun) as [J1 J2 _ _].
  now split.
Qed.

(** X12: in every state an adapter can reach, the entities were created
    in the order of the keys of the stored field map: the entity at
    position [i] is the one for the [i]-th key. *)
Theorem entities_follow_key_order (name : string) (device : Z)
  (evs : list event) (w : world) :
  run round2 (world_init name device) evs = Some w ->
  map _key (entities w) = PyDict.keys (_fetched (adapter w)) /\
  forall i k, PyDict.keys (_fetched (adapter w)) !! i = Some k ->
    exists s, entities w !! i = Some s /\ _key s = k.
Proof.
  intros Hrun.
  destruct (delivery_inv_run evs _ w (world_inv_init name device)
              (delivery_inv_init name device) Hrun) as [_ _ J3 _].
  split; [assumption|].
  intros i k Hk. rewrite <- J3, list_lookup_fmap in Hk.
  destruct (entities w !! i) as [s|]; [|discriminate].
  exists s. split; [reflexivity|]. now injection Hk.
Qed.

(** X17: a poll that fetched requests an update for every sensor
    registered at that moment, once each, and for no other; and in every
    state an adapter can reach, each request made so far names an entity
    whose update succeeds. *)
Theorem update_requests_name_entities (name : string) (device : Z)
  (evs : list event) (w : world) :
  run round2 (world_init name device) evs = Some w ->
  (forall l, l ∈ scheduled w ->
     exists s, entities w !! l = Some s /\
       is_Some (FroniusTemplateSensor_async_update round2 (adapter w) s)) /\
  (forall values,
     let w' := FroniusAdapter_async_update w (Fetched values) in
     NoDup (new_requests w w') /\
     forall l, l ∈ new_requests w w' <-> l ∈ _registered_sensors (adapter w)).
Proof.
  intros Hrun.
  assert (world_inv w) as Hinv.
  { eapply world_inv_run; [apply world_inv_init | exact Hrun]. }
  destruct (delivery_inv_run evs _ w (world_inv_init name device)
              (delivery_inv_init name device) Hrun) as [_ _ _ J4].
  split.
  - intros l Hl. apply J4 in Hl.
    destruct (lookup_lt_is_Some_2 _ _ Hl) as [s Hs]. exists s.
    split; [assumption|]. eapply entity_update_succeeds; eauto.
  - intros values w'. unfold new_requests, w'. simpl.
    rewrite drop_app_length. split; [apply NoDup_elements|].
    intros l. apply elem_of_elements.
Qed.

End Delivery.

(** ** More on the configuration *)

Lemma with_default_device_is_Some (d : cond) :
  is_Some (with_default_device d) <->
  PyDict.mem CONF_DEVICE d = true \/ is_Some (PyDict.get CONF_SENSOR_TYPE d).
Proof.
  unfold with_default_device. destruct (PyDict.mem CONF_DEVICE d).
  - split; eauto.
  - destruct (PyDict.get CONF_SENSOR_TYPE d) as [t|]; simpl.
    + split; eauto.
    + split; [intros [? ?]; discriminate|].
      intros [?|[? ?]]; discriminate.
Qed.

Lemma set_default_devices_Some_inv (ls : list loc) :
  forall h h' : heap,
    set_default_devices h ls = Some h' ->
    Forall (fun l => exists c, h !! l = Some c /\
                       is_Some (with_default_device c)) ls.
Proof.
  induction ls as [|l ls IH]; intros h h' Hrun; [constructor|].
  simpl in Hrun. destruct (h !! l) as [c|] eqn:Hc; [|discriminate].
  simpl in Hrun. destruct (PyDict.mem CONF_DEVICE c) eqn:Hmem.
  - constructor; [|eapply IH; eauto].
    exists c. split; [exact Hc|].
    apply with_default_device_is_Some. now left.
  - destruct (PyDict.get CONF_SENSOR_TYPE c) as [t|] eqn:Ht; [|discriminate].
    simpl in Hrun. constructor.
    + exists c. split; [exact Hc|].
      apply with_default_device_is_Some. right. rewrite Ht. eauto.
    + eapply Forall_impl; [eapply IH; eauto|].
      intros x (cx & Hcx & Hs). simpl in Hcx.
      destruct (decide (x = l)) as [->|Hne].
      * exists c. split; [assumption|].
        apply with_default_device_is_Some. right. rewrite Ht. eauto.
      * exists cx. rewrite list_lookup_insert_ne in Hcx by auto. auto.
Qed.

(** The validator on any configuration it gets through. *)
Lemma device_id_validator_spec_gen (h : heap) (c : config) :
  Forall (fun l => exists d, h !! l = Some d /\
                     is_Some (with_default_device d))
         (monitored_conditions c) ->
  exists h' c',
    _device_id_validator h c = Some (h', c') /\
    cfg_items c' = cfg_items c /\
    (forall l, l < length h -> h' !! l = h !! l) /\
    Forall2 (fun l l' => length h <= l' /\
               exists d, h !! l = Some d /\ h' !! l' = with_default_device d)
            (monitored_conditions c) (monitored_conditions c').
Proof.
  intros Hwf. unfold _device_id_validator, deepcopy.
  assert (copy_inv h h []) as Hinv0.
  { split; [exists []; now rewrite app_nil_r | intros ? ?; discriminate]. }
  assert (Forall (fun l => l < length h) (monitored_conditions c)) as Hlt.
  { eapply Forall_impl; [exact Hwf|]. intros l (d & Hd & _).
    eapply lookup_lt_Some; eauto. }
  destruct (deepcopy_conds_spec h _ h [] Hinv0 Hlt)
    as (h1 & m1 & ls1 & -> & [[ext ->] Hmemo] & _ & HF).
  cbn [mbind option_bind monitored_conditions].
  assert (Forall (fun l' => exists c0, (h ++ ext) !! l' = Some c0 /\
                    is_Some (with_default_device c0)) ls1) as Hall.
  { apply Forall_forall. intros l' Hin.
    apply list_elem_of_lookup in Hin as [i Hi].
    destruct (Forall2_lookup_r _ _ _ _ _ HF Hi) as (l & Hl & Hml).
    destruct (Hmemo l l' Hml) as (_ & d & Hd & Hd').
    exists d. split; [assumption|].
    apply list_elem_of_lookup_2 in Hl. rewrite Forall_forall in Hwf.
    destruct (Hwf l Hl) as (d0 & Hd0 & Hs). congruence. }
  destruct (set_default_devices_spec ls1 _ Hall) as (h2 & -> & Hlen & Hout & Hin).
  cbn [mbind option_bind].
  eexists _, _. split; [reflexivity|]. cbn [cfg_items monitored_conditions].
  split; [reflexivity|]. split.
  - intros l Hl. rewrite Hout.
    + now apply lookup_app_l.
    + intros Hl1. apply list_elem_of_lookup in Hl1 as [i Hi].
      destruct (Forall2_lookup_r _ _ _ _ _ HF Hi) as (l0 & _ & Hml).
      destruct (Hmemo _ _ Hml) as (Hge & _). lia.
  - apply Forall2_same_length_lookup. split; [eapply Forall2_length; eauto|].
    intros i l l' Hl Hl'.
    destruct (Forall2_lookup_memo _ _ _ _ _ HF Hl) as (l1 & Hl1 & Hml).
    assert (l1 = l') as -> by congruence.
    destruct (Hmemo _ _ Hml) as (Hge & d & Hd & Hd').
    split; [assumption|]. exists d. split; [assumption|].
    apply Hin; [|assumption]. eapply list_elem_of_lookup_2; eauto.
Qed.

Lemma can_default_with_default (h : heap) (c : config) :
  can_default h c <->
  Forall (fun l => exists d, h !! l = Some d /\
                     is_Some (with_default_device d))
         (monitored_conditions c).
Proof.
  unfold can_default. split; intros H; eapply Forall_impl; try exact H;
    intros l (d & Hd & Hs); exists d; (split; [assumption|]);
    now apply with_default_device_is_Some.
Qed.

(** X3: on a store without dangling locations the validator returns
    exactly when every condition has a device index or a sensor type; a
    condition with neither makes it fail with [KeyError]. *)
Theorem device_id_validator_returns_iff (h : heap) (c : config) :
  Forall (fun l => l < length h) (monitored_conditions c) ->
  (is_Some (_device_id_validator h c) <-> can_default h c).
Proof.
  intros Hlt. split.
  - intros [[h' c'] Hv]. apply can_default_with_default.
    unfold _device_id_validator, deepcopy in Hv.
    assert (copy_inv h h []) as Hinv0.
    { split; [exists []; now rewrite app_nil_r | intros ? ?; discriminate]. }
    destruct (deepcopy_conds_spec h _ h [] Hinv0 Hlt)
      as (h1 & m1 & ls1 & Hcopy & [[ext ->] Hmemo] & _ & HF).
    rewrite Hcopy in Hv. cbn [mbind option_bind monitored_conditions] in Hv.
    destruct (set_default_devices (h ++ ext) ls1) as [h2|] eqn:Hset;
      [|discriminate].
    apply set_default_devices_Some_inv in Hset.
    rewrite Forall_forall in Hset. apply Forall_forall. intros l Hl.
    apply list_elem_of_lookup in Hl as [i Hi].
    destruct (Forall2_lookup_memo _ _ _ _ _ HF Hi) as (l' & Hl' & Hml).
    destruct (Hmemo _ _ Hml) as (_ & d & Hd & Hd').
    exists d. split; [assumption|].
    apply list_elem_of_lookup_2 in Hl'.
    destruct (Hset l' Hl') as (d0 & Hd0 & Hs). congruence.
  - intros Hc. apply can_default_with_default in Hc.
    destruct (device_id_validator_spec_gen h c Hc) as (h' & c' & -> & _).
    eauto.
Qed.

(** X4: validating twice changes nothing more: run on its own result, the
    validator returns conditions with exactly the items of the first
    run's. *)
Theorem device_id_validator_idempotent (h : heap) (c : config) :
  can_default h c ->
  exists h1 c1 h2 c2,
    _device_id_validator h c = Some (h1, c1) /\
    _device_id_validator h1 c1 = Some (h2, c2) /\
    length (monitored_conditions c2) = length (monitored_conditions c1) /\
    forall i l1 d,
      monitored_conditions c1 !! i = Some l1 -> h1 !! l1 = Some d ->
      exists l2, monitored_conditions c2 !! i = Some l2 /\ h2 !! l2 = Some d.
Proof.
  intros Hc. apply can_default_with_default in Hc.
  destruct (device_id_validator_spec_gen h c Hc)
    as (h1 & c1 & Hv1 & _ & _ & HF1).
  assert (Forall (fun l => exists d, h1 !! l = Some d /\
                     with_default_device d = Some d)
                 (monitored_conditions c1)) as Hc1.
  { apply Forall_forall. intros l1 Hl1.
    apply list_elem_of_lookup in Hl1 as [i Hi].
    destruct (Forall2_lookup_r _ _ _ _ _ HF1 Hi) as (l & Hl & _ & d & Hd & Hd1).
    apply list_elem_of_lookup_2 in Hl. rewrite Forall_forall in Hc.
    destruct (Hc l Hl) as (d0 & Hd0 & [d1 Hwd]).
    assert (d0 = d) as -> by congruence.
    exists d1. split; [congruence|].
    eapply with_default_device_idem; eauto. }
  assert (Forall (fun l => exists d, h1 !! l = Some d /\
                     is_Some (with_default_device d))
                 (monitored_conditions c1)) as Hc1'.
  { eapply Forall_impl; [exact Hc1|]. intros l (d & Hd & Hs). eauto. }
  destruct (device_id_validator_spec_gen h1 c1 Hc1')
    as (h2 & c2 & Hv2 & _ & _ & HF2).
  exists h1, c1, h2, c2. split; [assumption|]. split; [assumption|].
  split; [symmetry; eapply Forall2_length; eauto|].
  intros i l1 d Hl1 Hd.
  destruct (Forall2_lookup_l _ _ _ _ _ HF2 Hl1) as (l2 & Hl2 & _ & d' & Hd' & Hd2).
  assert (d' = d) as -> by congruence.
  exists l2. split; [assumption|]. rewrite Hd2.
  apply list_elem_of_lookup_2 in Hl1. rewrite Forall_forall in Hc1.
  destruct (Hc1 l1 Hl1) as (d0 & Hd0 & Hs). congruence.
Qed.

(** ** The schema and the validator together *)

Lemma condition_schema_shape (rc : raw_condition) (d : cond) :
  condition_schema rc = Some d ->
  exists t,
    rc_sensor_type rc = Some t /\ t ∈ SENSOR_TYPES /\
    default DEFAULT_SCOPE (rc_scope rc) ∈ SCOPE_TYPES /\
    (forall n, rc_device rc = Some n -> (0 <= n)%Z) /\
    d = [(CONF_SENSOR_TYPE, AStr t);
         (CONF_SCOPE, AStr (default DEFAULT_SCOPE (rc_scope rc)))] ++
        match rc_device rc with
        | Some n => [(CONF_DEVICE, AInt n)]
        | None => []
        end.
Proof.
  destruct rc as [ty sc dev]. unfold condition_schema.
  cbn [rc_sensor_type rc_scope rc_device].
  destruct ty as [t|]; [|discriminate]. cbn [mbind option_bind].
  rewrite !vol_In_spec.
  destruct (decide (t ∈ SENSOR_TYPES)) as [Ht|]; [|simpl; discriminate].
  cbn [mbind option_bind].
  destruct (decide (default DEFAULT_SCOPE sc ∈ SCOPE_TYPES)) as [Hs|];
    [|simpl; discriminate].
  cbn [mbind option_bind]. destruct dev as [n|].
  - rewrite positive_int_spec.
    destruct (decide (0 <= n)%Z) as [Hn|]; [|simpl; discriminate].
    intros [= <-]. exists t. repeat split; auto. now intros ? [= <-].
  - intros [= <-]. exists t. repeat split; auto. discriminate.
Qed.

Lemma schema_output_defaulted (rc : raw_condition) (d : cond) (t : string) :
  condition_schema rc = Some d -> rc_sensor_type rc = Some t ->
  exists d',
    with_default_device d = Some d' /\
    PyDict.get CONF_SENSOR_TYPE d' = Some (AStr t) /\
    PyDict.get CONF_SCOPE d' =
      Some (AStr (default DEFAULT_SCOPE (rc_scope rc))) /\
    PyDict.get CONF_DEVICE d' = Some (AInt (effective_device rc t)).
Proof.
  intros Hd Ht.
  destruct (condition_schema_shape rc d Hd) as (t' & Ht' & _ & _ & _ & ->).
  assert (t' = t) as -> by congruence.
  unfold effective_device, with_default_device.
  destruct (rc_device rc) as [n|].
  - eexists. split; [reflexivity|]. repeat split.
  - eexists. split; [reflexivity|]. split; [reflexivity|].
    split; [reflexivity|]. cbn.
    destruct (decide (AStr t = AStr TYPE_INVERTER)) as [[= ->]|Hne].
    + now rewrite decide_True.
    + rewrite decide_False; [reflexivity|]. intros ->. now apply Hne.
Qed.

(** X6: one rejected condition rejects the whole list, and nothing else
    does: the conditions come out of validation exactly when the schema
    accepts each of them. *)
Theorem validate_conditions_returns_iff (items : PyDict.t atom)
  (rcs : list raw_condition) :
  is_Some (validate_conditions items rcs) <->
  Forall (fun rc => is_Some (condition_schema rc)) rcs.
Proof.
  unfold validate_conditions, conditions_schema. split.
  - intros [hc H]. apply (mapM_is_Some_1 condition_schema).
    destruct (mapM condition_schema rcs); [eauto|discriminate].
  - intros Hall. apply (mapM_is_Some_2 condition_schema) in Hall as [ds Hds].
    rewrite Hds. cbn [mbind option_bind].
    apply mapM_Some_1 in Hds.
    apply device_id_validator_returns_iff.
    + simpl. apply Forall_forall. intros l Hl.
      apply list_elem_of_In, in_seq in Hl. lia.
    + unfold can_default. simpl. apply Forall_forall. intros l Hl.
      apply list_elem_of_In, in_seq in Hl.
      destruct (lookup_lt_is_Some_2 ds l) as [d Hd]; [lia|].
      exists d. split; [assumption|].
      destruct (Forall2_lookup_r _ _ _ _ _ Hds Hd) as (rc & _ & Hrc).
      destruct (condition_schema_sensor_type rc d Hrc) as (t & _ & Ht & _).
      right. rewrite Ht. eauto.
Qed.

(** What validation hands on, in full. *)
Lemma validate_conditions_spec (items : PyDict.t atom)
  (rcs : list raw_condition) (h : heap) (c : config) :
  validate_conditions items rcs = Some (h, c) ->
  cfg_items c = items /\
  length (monitored_conditions c) = length rcs /\
  forall i rc, rcs !! i = Some rc ->
    exists l d t,
      monitored_conditions c !! i = Some l /\ h !! l = Some d /\
      rc_sensor_type rc = Some t /\ t ∈ SENSOR_TYPES /\
      PyDict.get CONF_SENSOR_TYPE d = Some (AStr t) /\
      PyDict.get CONF_SCOPE d =
        Some (AStr (default DEFAULT_SCOPE (rc_scope rc))) /\
      default DEFAULT_SCOPE (rc_scope rc) ∈ SCOPE_TYPES /\
      PyDict.get CONF_DEVICE d = Some (AInt (effective_device rc t)) /\
      (0 <= effective_device rc t)%Z.
Proof.
  unfold validate_conditions, conditions_schema. intros Hv.
  destruct (mapM condition_schema rcs) as [ds|] eqn:Hds; [|discriminate].
  cbn [mbind option_bind] in Hv. apply mapM_Some_1 in Hds.
  pose proof (Forall2_length _ _ _ Hds) as Hlen.
  assert (Forall (fun l => exists d, ds !! l = Some d /\
                     is_Some (with_default_device d))
            (monitored_conditions
               {| cfg_items := items;
                  monitored_conditions := seq 0 (length ds) |})) as Hpre.
  { simpl. apply Forall_forall. intros l Hl.
    apply list_elem_of_In, in_seq in Hl.
    destruct (lookup_lt_is_Some_2 ds l) as [d Hd]; [lia|].
    exists d. split; [assumption|].
    destruct (Forall2_lookup_r _ _ _ _ _ Hds Hd) as (rc & _ & Hrc).
    destruct (condition_schema_sensor_type rc d Hrc) as (t & Ht & _).
    destruct (schema_output_defaulted rc d t Hrc Ht) as (d' & -> & _). eauto. }
  destruct (device_id_validator_spec_gen _ _ Hpre)
    as (h' & c' & Hv' & Hitems & _ & HF).
  rewrite Hv' in Hv. injection Hv as -> ->. simpl in Hitems, HF.
  split; [assumption|]. split.
  { rewrite <- (Forall2_length _ _ _ HF), length_seq. now symmetry. }
  intros i rc Hrc.
  destruct (Forall2_lookup_l _ _ _ _ _ Hds Hrc) as (d & Hd & Hschema).
  assert (seq 0 (length ds) !! i = Some i) as Hi.
  { apply lookup_seq. split; [reflexivity|]. eapply lookup_lt_Some; eauto. }
  destruct (Forall2_lookup_l _ _ _ _ _ HF Hi) as (l & Hl & _ & d0 & Hd0 & Hl').
  assert (d0 = d) as -> by congruence.
  destruct (condition_schema_shape rc d Hschema) as (t & Ht & HtS & HsS & Hn & _).
  destruct (schema_output_defaulted rc d t Hschema Ht)
    as (d' & Hwd & Hg1 & Hg2 & Hg3).
  exists l, d', t. rewrite Hl', Hwd.
  repeat split; auto.
  unfold effective_device. destruct (rc_device rc) as [n|]; [now apply Hn|].
  destruct (decide (t = TYPE_INVERTER)); unfold DEFAULT_INVERTER, DEFAULT_DEVICE; lia.
Qed.

(** X5: what validation hands on: as many conditions as were written, in
    the same order, each a dictionary with its sensor type (one of the
    five), its scope or the default ["device"], and a device index: the
    one written, which is not negative, or else 1 for an inverter and 0
    for any other sensor type. *)
Theorem validated_conditions_complete (items : PyDict.t atom)
  (rcs : list raw_condition) (h : heap) (c : config) :
  validate_conditions items rcs = Some (h, c) ->
  cfg_items c = items /\
  length (monitored_conditions c) = length rcs /\
  forall i rc, rcs !! i = Some rc ->
    exists l d t,
      monitored_conditions c !! i = Some l /\ h !! l = Some d /\
      rc_sensor_type rc = Some t /\ t ∈ SENSOR_TYPES /\
      PyDict.get CONF_SENSOR_TYPE d = Some (AStr t) /\
      PyDict.get CONF_SCOPE d =
        Some (AStr (default DEFAULT_SCOPE (rc_scope rc))) /\
      default DEFAULT_SCOPE (rc_scope rc) ∈ SCOPE_TYPES /\
      PyDict.get CONF_DEVICE d = Some (AInt (effective_device rc t)) /\
      (0 <= effective_device rc t)%Z.
Proof. apply validate_conditions_spec. Qed.

(** ** Names of adapters *)

Lemma append_length (s t : string) :
  String.length (s ++ t)%string = String.length s + String.length t.
Proof. induction s as [|c s IH]; simpl; [reflexivity | now rewrite IH]. Qed.

Lemma append_cancel_r (t : string) :
  forall s1 s2 : string, (s1 ++ t)%string = (s2 ++ t)%string -> s1 = s2.
Proof.
  induction s1 as [|c s1 IH]; intros [|c' s2] H.
  - reflexivity.
  - apply (f_equal String.length) in H.
    rewrite !append_length in H. simpl in H. lia.
  - apply (f_equal String.length) in H.
    rewrite !append_length in H. simpl in H. lia.
  - change (String c (s1 ++ t)%string = String c' (s2 ++ t)%string) in H.
    injection H as -> H. f_equal. now apply IH.
Qed.

Lemma append_cancel_l (s x y : string) :
  (s ++ x)%string = (s ++ y)%string -> x = y.
Proof.
  induction s as [|c s IH]; intros H; [exact H|].
  change (String c (s ++ x)%string = String c (s ++ y)%string) in H.
  injection H as H. now apply IH.
Qed.

Lemma to_int_not_nil (n : Z) :
  Z.to_int n <> Decimal.Pos Decimal.Nil /\ Z.to_int n <> Decimal.Neg Decimal.Nil.
Proof.
  destruct n as [|p|p]; simpl; split; try discriminate;
    intros [= H]; exact (DecimalPos.Unsigned.to_uint_nonnil p H).
Qed.

Lemma str_of_int_read (n : Z) :
  DecimalString.NilZero.int_of_string (str_of_int n) = Some (Z.to_int n).
Proof.
  destruct (to_int_not_nil n) as [H1 H2].
  now apply DecimalString.NilZero.isi.
Qed.

Lemma str_of_int_inj (n m : Z) : str_of_int n = str_of_int m -> n = m.
Proof.
  intros H. apply (f_equal DecimalString.NilZero.int_of_string) in H.
  rewrite !str_of_int_read in H. injection H as H.
  now apply DecimalZ.to_int_inj.
Qed.

Lemma str_of_int_not_system (n : Z) : str_of_int n <> SCOPE_SYSTEM.
Proof.
  intros H. apply (f_equal DecimalString.NilZero.int_of_string) in H.
  rewrite str_of_int_read in H. discriminate H.
Qed.

Lemma adapter_name_parts (t : string) (scope device resource : atom) :
  adapter_name t scope device resource =
  ("Fronius " ++ capitalize (replace_char "_" " " t) ++ " " ++
   name_target scope device ++ " " ++ format_atom resource)%string.
Proof. reflexivity. Qed.

Lemma type_label_inj (t1 t2 x1 x2 : string) :
  t1 ∈ SENSOR_TYPES -> t2 ∈ SENSOR_TYPES ->
  (capitalize (replace_char "_" " " t1) ++ " " ++ x1)%string =
  (capitalize (replace_char "_" " " t2) ++ " " ++ x2)%string ->
  t1 = t2 /\ x1 = x2.
Proof.
  intros H1 H2.
  apply sensor_types_enum in H1. apply sensor_types_enum in H2.
  destruct H1 as [-> | [-> | [-> | [-> | ->]]]];
    destruct H2 as [-> | [-> | [-> | [-> | ->]]]];
    vm_compute; intros H; try discriminate H;
    (split; [reflexivity|]); now simplify_eq.
Qed.

(** X8: two monitored conditions of one configuration get the same adapter
    name only when they have the same sensor type and the names say the
    same target: both the whole system, or both the same device index. *)
Theorem adapter_name_injective (t1 t2 : string) (s1 s2 : atom) (d1 d2 : Z)
  (resource : atom) :
  t1 ∈ SENSOR_TYPES -> t2 ∈ SENSOR_TYPES ->
  adapter_name t1 s1 (AInt d1) resource = adapter_name t2 s2 (AInt d2) resource ->
  t1 = t2 /\
  (s1 = AStr SCOPE_DEVICE <-> s2 = AStr SCOPE_DEVICE) /\
  (s1 = AStr SCOPE_DEVICE -> d1 = d2).
Proof.
  intros H1 H2 H. rewrite !adapter_name_parts in H.
  apply append_cancel_l in H.
  apply (type_label_inj t1 t2 _ _ H1 H2) in H. destruct H as [<- H].
  split; [reflexivity|].
  apply append_cancel_r in H. unfold name_target in H. simpl in H.
  destruct (decide (s1 = AStr SCOPE_DEVICE)) as [E1|E1];
    destruct (decide (s2 = AStr SCOPE_DEVICE)) as [E2|E2].
  - split; [tauto|]. intros _. now apply str_of_int_inj.
  - now apply str_of_int_not_system in H.
  - symmetry in H. now apply str_of_int_not_system in H.
  - split; [tauto|]. intros; contradiction.
Qed.

(** ** Setting the platform up *)

(** X7: whether the device index of a condition reaches the telemetry
    client depends on its sensor type and scope alone: the index is left
    out of the call exactly for power flow and logger info and for an
    inverter or a meter in system scope; storage and every other sensor
    type pass it on, whatever the scope. *)
Theorem device_index_reaches_bridge (sensor_type scope : atom) (n m : Z) :
  n <> m ->
  (_update (select_adapter_cls sensor_type scope) n =
   _update (select_adapter_cls sensor_type scope) m <->
   sensor_type = AStr TYPE_POWER_FLOW \/
   sensor_type = AStr TYPE_LOGGER_INFO \/
   ((sensor_type = AStr TYPE_INVERTER \/ sensor_type = AStr TYPE_METER) /\
    scope = AStr SCOPE_SYSTEM)).
Proof.
  intros Hnm.
  unfold select_adapter_cls, TYPE_INVERTER, TYPE_METER, TYPE_POWER_FLOW,
    TYPE_LOGGER_INFO, SCOPE_SYSTEM.
  repeat match goal with
         | |- context [decide ?P] => destruct (decide P)
         end;
    simpl;
    (split;
     [ intros Hc; try (injection Hc as Hc; contradiction); tauto
     | intros Hd; try reflexivity; exfalso;
       intuition (subst; try discriminate; congruence) ]).
Qed.

Lemma poll_name_device (w : world) (r : fetch_result) :
  _name (adapter (FroniusAdapter_async_update w r)) = _name (adapter w) /\
  _device (adapter (FroniusAdapter_async_update w r)) = _device (adapter w).
Proof.
  destruct r as [values|err]; simpl; [auto|].
  now destruct (_available (adapter w)).
Qed.

Lemma create_adapter_complete (resource : atom) (d : cond) (t : string)
  (sc : atom) (n : Z) :
  PyDict.get CONF_SENSOR_TYPE d = Some (AStr t) ->
  PyDict.get CONF_SCOPE d = Some sc ->
  PyDict.get CONF_DEVICE d = Some (AInt n) ->
  create_adapter resource d =
  Some {| a_cls := select_adapter_cls (AStr t) sc;
          a_world := world_init (adapter_name t sc (AInt n) resource) n |}.
Proof. intros Ht Hs Hn. unfold create_adapter. now rewrite Hn, Ht, Hs. Qed.

Lemma create_adapters_spec (h : heap) (resource : atom) (ls : list loc) :
  Forall (fun l => exists d, h !! l = Some d /\ complete_condition d) ls ->
  exists created,
    create_adapters h resource ls = Some created /\
    Forall2 (fun l a0 => exists d, h !! l = Some d /\
                           create_adapter resource d = Some a0) ls created.
Proof.
  intros Hall. unfold create_adapters.
  assert (is_Some (mapM (fun l => c ← h !! l; create_adapter resource c) ls))
    as [created Hc].
  { apply mapM_is_Some_2. eapply Forall_impl; [exact Hall|].
    intros l (d & Hd & t & sc & n & Ht & Hs & Hn). simpl. rewrite Hd. simpl.
    rewrite (create_adapter_complete _ _ _ _ _ Ht Hs Hn). eauto. }
  exists created. split; [assumption|].
  apply mapM_Some_1 in Hc. eapply Forall2_impl; [exact Hc|].
  intros l a0 H. simpl in H. destruct (h !! l) as [d|]; [|discriminate].
  exists d. auto.
Qed.

Section Setup.

Variable Bridge : Type.
Variable bridge_answer : Bridge -> bridge_call -> fetch_result * Bridge.

Lemma fetch_all_spec (iv : atom) (todo : list adapter_obj) :
  forall (b : Bridge) (i : nat),
    exists b' done,
      fetch_all Bridge bridge_answer b iv i todo =
        (b', done, map (fun j => (j, iv)) (seq i (length todo))) /\
      Forall2 (fun a0 a => a_cls a = a_cls a0 /\
                 exists r, a_world a =
                           FroniusAdapter_async_update (a_world a0) r)
              todo done.
Proof.
  induction todo as [|a0 todo IH]; intros b i; simpl.
  - exists b, []. split; [reflexivity | constructor].
  - unfold fetch_data.
    destruct (bridge_answer b
                (_update (a_cls a0) (_device (adapter (a_world a0)))))
      as [r b1].
    destruct (IH b1 (S i)) as (b' & done & -> & HF).
    eexists _, _. split; [reflexivity|].
    constructor; [|assumption]. simpl. eauto.
Qed.

(** Setting up, on a configuration with its resource and with complete
    conditions. *)
Lemma setup_spec (b : Bridge) (h : heap) (c : config) (resource : atom) :
  PyDict.get CONF_RESOURCE (cfg_items c) = Some resource ->
  Forall (fun l => exists d, h !! l = Some d /\ complete_condition d)
         (monitored_conditions c) ->
  exists b' p,
    async_setup_platform Bridge bridge_answer b h c = Some (b', p) /\
    length (adapters p) = length (monitored_conditions c) /\
    timers p =
      map (fun i => (i, default DEFAULT_SCAN_INTERVAL
                          (PyDict.get CONF_SCAN_INTERVAL (cfg_items c))))
          (seq 0 (length (monitored_conditions c))) /\
    forall i l d,
      monitored_conditions c !! i = Some l -> h !! l = Some d ->
      exists a0 a r,
        create_adapter resource d = Some a0 /\
        adapters p !! i = Some a /\
        a_cls a = a_cls a0 /\
        a_world a = FroniusAdapter_async_update (a_world a0) r.
Proof.
  intros Hres Hall. unfold async_setup_platform. rewrite Hres.
  cbn [mbind option_bind].
  destruct (create_adapters_spec h resource _ Hall) as (created & -> & HF1).
  cbn [mbind option_bind].
  destruct (fetch_all_spec
              (default DEFAULT_SCAN_INTERVAL
                 (PyDict.get CONF_SCAN_INTERVAL (cfg_items c)))
              created b 0) as (b' & done & -> & HF2).
  eexists _, _. split; [reflexivity|]. simpl.
  pose proof (Forall2_length _ _ _ HF1) as Hl1.
  pose proof (Forall2_length _ _ _ HF2) as Hl2.
  split; [congruence|]. split; [now rewrite Hl1|].
  intros i l d Hl Hd.
  destruct (Forall2_lookup_l _ _ _ _ _ HF1 Hl) as (a0 & Ha0 & d' & Hd' & Hc).
  assert (d' = d) as -> by congruence.
  destruct (Forall2_lookup_l _ _ _ _ _ HF2 Ha0) as (a & Ha & Hcls & r & Hw).
  exists a0, a, r. auto.
Qed.

(** X9: on a configuration that has its resource and whose conditions
    have their three keys, setting up returns whatever the telemetry
    client answers: it creates one adapter per condition, in order, has
    each fetch exactly once from its initial state, and sets one timer
    per adapter, all with the configured scan interval, 60 seconds when
    none is configured. *)
Theorem setup_polls_every_adapter_once (b : Bridge) (h : heap) (c : config)
  (resource : atom) :
  PyDict.get CONF_RESOURCE (cfg_items c) = Some resource ->
  Forall (fun l => exists d, h !! l = Some d /\ complete_condition d)
         (monitored_conditions c) ->
  exists b' p,
    async_setup_platform Bridge bridge_answer b h c = Some (b', p) /\
    length (adapters p) = length (monitored_conditions c) /\
    timers p =
      map (fun i => (i, default DEFAULT_SCAN_INTERVAL
                          (PyDict.get CONF_SCAN_INTERVAL (cfg_items c))))
          (seq 0 (length (monitored_conditions c))) /\
    forall i l d,
      monitored_conditions c !! i = Some l -> h !! l = Some d ->
      exists a0 a r,
        create_adapter resource d = Some a0 /\
        adapters p !! i = Some a /\
        a_cls a = a_cls a0 /\
        a_world a = FroniusAdapter_async_update (a_world a0) r.
Proof. apply setup_spec. Qed.

(** X18: a configuration that went through validation can always be set
    up: the adapter made for a condition has the class chosen by its
    sensor type and scope, the device index written or the default for
    its sensor type, and the name built from the three. *)
Theorem setup_after_validation (b : Bridge) (items : PyDict.t atom)
  (rcs : list raw_condition) (h : heap) (c : config) (resource : atom) :
  validate_conditions items rcs = Some (h, c) ->
  PyDict.get CONF_RESOURCE items = Some resource ->
  exists b' p,
    async_setup_platform Bridge bridge_answer b h c = Some (b', p) /\
    length (adapters p) = length rcs /\
    forall i rc, rcs !! i = Some rc ->
      exists a t,
        adapters p !! i = Some a /\
        rc_sensor_type rc = Some t /\
        a_cls a =
          select_adapter_cls (AStr t)
            (AStr (default DEFAULT_SCOPE (rc_scope rc))) /\
        _device (adapter (a_world a)) = effective_device rc t /\
        _name (adapter (a_world a)) =
          adapter_name t (AStr (default DEFAULT_SCOPE (rc_scope rc)))
            (AInt (effective_device rc t)) resource.
Proof.
  intros Hv Hres.
  destruct (validate_conditions_spec items rcs h c Hv) as (Hitems & Hlen & Hc).
  assert (Forall (fun l => exists d, h !! l = Some d /\ complete_condition d)
            (monitored_conditions c)) as Hall.
  { apply Forall_forall. intros l Hl.
    apply list_elem_of_lookup in Hl as [i Hi].
    destruct (lookup_lt_is_Some_2 rcs i) as [rc Hrc].
    { rewrite <- Hlen. eapply lookup_lt_Some; eauto. }
    destruct (Hc i rc Hrc)
      as (l' & d & t & Hl' & Hd & _ & _ & Hg1 & Hg2 & _ & Hg3 & _).
    assert (l' = l) as -> by congruence.
    exists d. split; [assumption|]. exists t. eauto. }
  rewrite <- Hitems in Hres.
  destruct (setup_spec b h c resource Hres Hall) as (b' & p & Hs & Hla & _ & Ha).
  exists b', p. split; [assumption|]. split; [congruence|].
  intros i rc Hrc.
  destruct (Hc i rc Hrc)
    as (l & d & t & Hl & Hd & Ht & _ & Hg1 & Hg2 & _ & Hg3 & _).
  destruct (Ha i l d Hl Hd) as (a0 & a & r & Hc0 & Hai & Hcls & Hw).
  rewrite (create_adapter_complete _ _ _ _ _ Hg1 Hg2 Hg3) in Hc0.
  injection Hc0 as <-.
  exists a, t. split; [assumption|]. split; [assumption|].
  split; [exact Hcls|].
  rewrite Hw. destruct (poll_name_device
    (world_init
       (adapter_name t (AStr (default DEFAULT_SCOPE (rc_scope rc)))
          (AInt (effective_device rc t)) resource)
       (effective_device rc t)) r) as [Hn Hdv].
  simpl in Hn, Hdv |- *. now rewrite Hn, Hdv.
Qed.

End Setup.

(** X19: the schema alone is not enough for setting up: on what the
    schema makes of a condition, creating the adapter succeeds exactly
    when the condition was written with a device index; one written
    without raises [KeyError] unless the validator has filled it in. *)
Theorem create_adapter_needs_device (resource : atom) (rc : raw_condition)
  (d : cond) :
  condition_schema rc = Some d ->
  (is_Some (create_adapter resource d) <-> is_Some (rc_device rc)).
Proof.
  intros Hd.
  destruct (condition_schema_shape rc d Hd) as (t & _ & _ & _ & _ & ->).
  destruct (rc_device rc) as [n|].
  - split; [eauto|]. intros _.
    erewrite create_adapter_complete; [eauto|reflexivity..].
  - split; intros [x Hx]; discriminate Hx.
Qed.

(** ** Entities stay *)

Section Persistence.

Variable round2 : float -> float.

Lemma exec_entity_persists (w w' : world) (ev : event) (l : nat)
  (s : FroniusTemplateSensor) :
  exec round2 w ev = Some w' -> entities w !! l = Some s ->
  exists s', entities w' !! l = Some s' /\ _key s' = _key s /\
    _attr_device_class s' = _attr_device_class s /\
    _attr_state_class s' = _attr_state_class s.
Proof.
  destruct ev as [[values|err]|l0|l0|l0]; simpl.
  - intros [= <-] Hs. exists s. rewrite discover_entities. simpl.
    split; [now apply lookup_app_l_Some | auto].
  - intros [= <-] Hs. exists s. now destruct (_available (adapter w)).
  - destruct (entities w !! l0); [|discriminate]. simpl.
    intros [= <-] Hs. exists s. auto.
  - unfold unregister.
    destruct (decide (l0 ∈ _registered_sensors (adapter w))); [|discriminate].
    intros [= <-] Hs. exists s. auto.
  - destruct (entities w !! l0) as [s0|] eqn:Hs0; [|discriminate]. simpl.
    unfold FroniusTemplateSensor_async_update.
    destruct (PyDict.get (_key s0) (data (adapter w))) as [state|];
      [|discriminate].
    simpl. intros [= <-] Hs. simpl.
    destruct (decide (l = l0)) as [->|Hne].
    + assert (s0 = s) as -> by congruence.
      eexists. split; [apply list_lookup_insert_eq|simpl; auto].
      eapply lookup_lt_Some; eauto.
    + exists s. rewrite list_lookup_insert_ne by auto. auto.
Qed.

(** X20: nothing that happens to an adapter removes or replaces an entity:
    an entity stays at its place in the store with the key and the device
    and state class it was created with. *)
Theorem entities_persist (evs : list event) (w w' : world) (l : nat)
  (s : FroniusTemplateSensor) :
  run round2 w evs = Some w' -> entities w !! l = Some s ->
  exists s', entities w' !! l = Some s' /\ _key s' = _key s /\
    _attr_device_class s' = _attr_device_class s /\
    _attr_state_class s' = _attr_state_class s.
Proof.
  revert w s. induction evs as [|ev evs IH]; intros w s; simpl.
  - intros [= <-] Hs. exists s. auto.
  - destruct (exec round2 w ev) as [w1|] eqn:He; [|discriminate]. simpl.
    intros Hr Hs.
    destruct (exec_entity_persists w w1 ev l s He Hs)
      as (s1 & Hs1 & Hk1 & Hd1 & Hc1).
    destruct (IH w1 s1 Hr Hs1) as (s' & Hs' & Hk & Hd & Hc).
    exists s'. split; [assumption|]. repeat split; congruence.
Qed.

End Persistence.

(** ** The further properties at sample inputs *)

Lemma absent_field_keeps_entry_sample :
  PyDict.get "power_ac" (_fetched (adapter sample_world)) =
    Some [("value", PInt 1200); ("unit", PStr "W")] /\
  PyDict.get "power_ac"
    (_fetched (adapter (polls sample_world
                          [Fetched sample_response_2; FroniusError "down"]))) =
    Some [("value", PInt 1200); ("unit", PStr "W")].
Proof.
  split; [reflexivity|].
  apply (absent_field_keeps_entry sample_world
           [Fetched sample_response_2; FroniusError "down"]);
    [reflexivity|].
  intros values Hin (e & He & _).
  apply elem_of_cons in Hin as [[= ->]|Hin].
  - apply list_elem_of_singleton in He. discriminate He.
  - apply list_elem_of_singleton in Hin. discriminate Hin.
Defined.

Lemma entities_show_stored_values_sample :
  run (fun f => f) (world_init "Fronius Inverter 1" 1)
      [Poll (Fetched sample_response_1)] = Some sample_world /\
  exists v, PyDict.get "value" [("value", PInt 1200); ("unit", PStr "W")] = Some v.
Proof.
  split; [reflexivity|].
  apply (proj1 (entities_show_stored_values (fun f => f)
                  "Fronius Inverter 1" 1
                  [Poll (Fetched sample_response_1)] sample_world eq_refl)
           "power_ac").
  reflexivity.
Defined.

Lemma entity_shows_fetched_value_sample :
  NoDup (PyDict.keys sample_response_1) /\
  FroniusTemplateSensor_async_update (fun f => f) (adapter sample_world)
    (FroniusTemplateSensor_init "power_ac") =
  Some {| _key := "power_ac";
          _attr_device_class := Some DEVICE_CLASS_POWER;
          _attr_state_class := Some STATE_CLASS_MEASUREMENT;
          _attr_native_value := PInt 1200;
          _attr_native_unit_of_measurement := PStr "W" |}.
Proof.
  split; [exact sample_response_1_keys|].
  exact (entity_shows_fetched_value (fun f => f)
           (world_init "Fronius Inverter 1" 1) sample_response_1
           "power_ac" [("value", PInt 1200); ("unit", PStr "W")] (PInt 1200)
           (FroniusTemplateSensor_init "power_ac")
           sample_response_1_keys eq_refl eq_refl eq_refl).
Defined.

Lemma entities_handed_over_once_sample :
  run (fun f => f) (world_init "Fronius Inverter 1" 1)
      [Poll (Fetched sample_response_1); SensorAdded 0]
    = Some sample_world_registered /\
  concat (added sample_world_registered) = [0] /\
  discovered (log sample_world_registered) = ["power_ac"].
Proof.
  split; [reflexivity|].
  exact (entities_handed_over_once (fun f => f) "Fronius Inverter 1" 1
           [Poll (Fetched sample_response_1); SensorAdded 0]
           sample_world_registered eq_refl).
Defined.

Lemma entities_follow_key_order_sample :
  run (fun f => f) (world_init "Fronius Inverter 1" 1)
      [Poll (Fetched sample_response_1); SensorAdded 0]
    = Some sample_world_registered /\
  map _key (entities sample_world_registered) = ["power_ac"].
Proof.
  split; [reflexivity|].
  exact (proj1 (entities_follow_key_order (fun f => f) "Fronius Inverter 1" 1
                  [Poll (Fetched sample_response_1); SensorAdded 0]
                  sample_world_registered eq_refl)).
Defined.

Lemma update_requests_name_entities_sample :
  run (fun f => f) (world_init "Fronius Inverter 1" 1)
      [Poll (Fetched sample_response_1); SensorAdded 0]
    = Some sample_world_registered /\
  NoDup (new_requests sample_world_registered
           (FroniusAdapter_async_update sample_world_registered
              (Fetched sample_response_2))).
Proof.
  split; [reflexivity|].
  exact (proj1 (proj2 (update_requests_name_entities (fun f => f)
                         "Fronius Inverter 1" 1
                         [Poll (Fetched sample_response_1); SensorAdded 0]
                         sample_world_registered eq_refl)
                  sample_response_2)).
Defined.

Lemma sample_config_in_store :
  Forall (fun l => l < length sample_heap) (monitored_conditions sample_config).
Proof. repeat constructor. Defined.

Lemma device_id_validator_returns_iff_sample :
  Forall (fun l => l < length sample_heap) (monitored_conditions sample_config) /\
  is_Some (_device_id_validator sample_heap sample_config).
Proof.
  split; [exact sample_config_in_store|].
  apply (device_id_validator_returns_iff sample_heap sample_config
           sample_config_in_store).
  repeat constructor; eexists;
    (split; [reflexivity | right; eexists; reflexivity]).
Defined.

Lemma sample_can_default : can_default sample_heap sample_config.
Proof.
  repeat constructor; eexists;
    (split; [reflexivity | right; eexists; reflexivity]).
Defined.

Lemma device_id_validator_idempotent_sample :
  can_default sample_heap sample_config /\
  exists h1 c1 h2 c2,
    _device_id_validator sample_heap sample_config = Some (h1, c1) /\
    _device_id_validator h1 c1 = Some (h2, c2) /\
    length (monitored_conditions c2) = length (monitored_conditions c1).
Proof.
  split; [exact sample_can_default|].
  destruct (device_id_validator_idempotent sample_heap sample_config
              sample_can_default) as (h1 & c1 & h2 & c2 & H1 & H2 & H3 & _).
  exists h1, c1, h2, c2. auto.
Defined.

Lemma sample_validated_eq :
  validate_conditions sample_items sample_raw_conditions =
  Some (fst sample_validated, snd sample_validated).
Proof. vm_compute. reflexivity. Defined.

Lemma validated_conditions_complete_sample :
  validate_conditions sample_items sample_raw_conditions =
    Some (fst sample_validated, snd sample_validated) /\
  length (monitored_conditions (snd sample_validated)) = 2.
Proof.
  split; [exact sample_validated_eq|].
  exact (proj1 (proj2 (validated_conditions_complete sample_items
                         sample_raw_conditions _ _ sample_validated_eq))).
Defined.

Lemma sample_type_inverter : "inverter" ∈ SENSOR_TYPES.
Proof. apply sensor_types_enum. now left. Defined.

Lemma adapter_name_injective_sample :
  "inverter" ∈ SENSOR_TYPES /\
  adapter_name "inverter" (AStr "system") (AInt 1) (AStr "http://fronius.local") =
  adapter_name "inverter" (AInt 7) (AInt 2) (AStr "http://fronius.local") /\
  (AStr "system" = AStr SCOPE_DEVICE <-> AInt 7 = AStr SCOPE_DEVICE).
Proof.
  split; [exact sample_type_inverter|]. split; [reflexivity|].
  exact (proj1 (proj2 (adapter_name_injective "inverter" "inverter"
                         (AStr "system") (AInt 7) 1 2
                         (AStr "http://fronius.local")
                         sample_type_inverter sample_type_inverter eq_refl))).
Defined.

Lemma device_index_reaches_bridge_sample :
  (1 <> 2)%Z /\
  _update (select_adapter_cls (AStr "storage") (AStr "system")) 1 <>
  _update (select_adapter_cls (AStr "storage") (AStr "system")) 2.
Proof.
  assert (1 <> 2)%Z as Hne by discriminate.
  split; [exact Hne|]. intros H.
  apply (device_index_reaches_bridge (AStr "storage") (AStr "system") 1 2 Hne)
    in H.
  destruct H as [H|[H|[[H|H] _]]]; discriminate H.
Defined.

Lemma sample_conditions_complete :
  Forall (fun l => exists d, sample_heap !! l = Some d /\ complete_condition d)
         [1].
Proof.
  repeat constructor. eexists. split; [reflexivity|].
  exists "meter", (AStr "system"), 5%Z. repeat split.
Defined.

Lemma setup_polls_every_adapter_once_sample :
  PyDict.get CONF_RESOURCE
    (cfg_items {| cfg_items := sample_items; monitored_conditions := [1] |}) =
    Some (AStr "http://fronius.local") /\
  exists b' p,
    async_setup_platform nat sample_bridge 0 sample_heap
      {| cfg_items := sample_items; monitored_conditions := [1] |} =
      Some (b', p) /\
    length (adapters p) = 1.
Proof.
  split; [reflexivity|].
  destruct (setup_polls_every_adapter_once nat sample_bridge 0 sample_heap
              {| cfg_items := sample_items; monitored_conditions := [1] |}
              (AStr "http://fronius.local") eq_refl
              sample_conditions_complete) as (b' & p & Hs & Hl & _).
  exists b', p. auto.
Defined.

Lemma setup_after_validation_sample :
  validate_conditions sample_items sample_raw_conditions =
    Some (fst sample_validated, snd sample_validated) /\
  exists b' p,
    async_setup_platform nat sample_bridge 0
      (fst sample_validated) (snd sample_validated) = Some (b', p) /\
    length (adapters p) = 2.
Proof.
  split; [exact sample_validated_eq|].
  destruct (setup_after_validation nat sample_bridge 0 sample_items
              sample_raw_conditions _ _ (AStr "http://fronius.local")
              sample_validated_eq eq_refl) as (b' & p & Hs & Hl & _).
  exists b', p. auto.
Defined.

Lemma create_adapter_needs_device_sample :
  condition_schema
    {| rc_sensor_type := Some "inverter"; rc_scope := None; rc_device := None |}
    = Some [(CONF_SENSOR_TYPE, AStr "inverter"); (CONF_SCOPE, AStr "device")] /\
  ~ is_Some (create_adapter (AStr "http://fronius.local")
               [(CONF_SENSOR_TYPE, AStr "inverter"); (CONF_SCOPE, AStr "device")]).
Proof.
  split; [reflexivity|]. intros H.
  apply (create_adapter_needs_device (AStr "http://fronius.local")
           {| rc_sensor_type := Some "inverter"; rc_scope := None;
              rc_device := None |} _ eq_refl) in H.
  destruct H as [? H]. discriminate H.
Defined.

Lemma entities_persist_sample :
  run (fun f => f) sample_world [SensorAdded 0] = Some sample_world_registered /\
  entities sample_world !! 0 = Some (FroniusTemplateSensor_init "power_ac") /\
  exists s', entities sample_world_registered !! 0 = Some s' /\
             _key s' = "power_ac".
Proof.
  split; [reflexivity|]. split; [reflexivity|].
  destruct (entities_persist (fun f => f) [SensorAdded 0] sample_world
              sample_world_registered 0 (FroniusTemplateSensor_init "power_ac")
              eq_refl eq_refl) as (s' & Hs' & Hk & _).
  exists s'. auto.
Defined.
